(** * ThunderDB: storage worker, block index, mock transport, 2PC coordinator

    A shallow embedding of the parts of ThunderDB that the specification
    talks about, and the theorems that relate the two.

    - [Storage]   : [storage.Storage] and its Prepare / Commit / Rollback
                    (the sqlite3-backed two-phase-commit worker).
    - [BlockIndex]: [sqlchain.blockNode], [ancestor] and [indexKey].
    - [Transport] : the receive loop of [MockTransport.sendRequest].
    - [TwoPC]     : the coordinator's [Put] and the Raft test worker. *)

From Stdlib Require Import ZArith NArith List String Bool Lia DecimalString.
From stdpp Require Import base option list gmap strings.

Local Open Scope Z_scope.

(* ===================================================================== *)
(** ** Errors shared by the packages *)
(* ===================================================================== *)

(** Go's [error] values.  The three errors built by the storage worker are
    kept apart by constructor; [ErrInconsistentState] carries the three
    numbers that [fmt.Errorf] formats into its message.  [ErrOther] is any
    error that comes from somewhere else (the SQL driver, a hook, a
    cancelled context), identified by its text. *)
Inductive error : Type :=
| ErrUnexpectedBatchType
| ErrInconsistentState (conn seq time : N)
| ErrTxNotPrepared
| ErrOther (msg : string).

Definition error_eqb (x y : error) : bool :=
  match x, y with
  | ErrUnexpectedBatchType, ErrUnexpectedBatchType => true
  | ErrInconsistentState a b c, ErrInconsistentState a' b' c' =>
      N.eqb a a' && N.eqb b b' && N.eqb c c'
  | ErrTxNotPrepared, ErrTxNotPrepared => true
  | ErrOther m, ErrOther m' => String.eqb m m'
  | _, _ => false
  end.

(* ===================================================================== *)
(** ** package storage *)
(* ===================================================================== *)

Module Storage.

(** [type ExecLog struct] *)
Record ExecLog : Type := mkExecLog {
  el_ConnectionID : N;
  el_SeqNo        : N;
  el_Timestamp    : N;
  el_Queries      : list string
}.

(** [type TxID struct] *)
Record TxID : Type := mkTxID {
  ConnectionID : N;
  SeqNo        : N;
  Timestamp    : N
}.

(** [func equalTxID] *)
Definition equalTxID (x y : TxID) : bool :=
  N.eqb (ConnectionID x) (ConnectionID y)
  && N.eqb (SeqNo x) (SeqNo y)
  && N.eqb (Timestamp x) (Timestamp y).

(** The [TxID{el.ConnectionID, el.SeqNo, el.Timestamp}] literal that every
    phase method builds from the incoming batch. *)
Definition txidOf (el : ExecLog) : TxID :=
  mkTxID (el_ConnectionID el) (el_SeqNo el) (el_Timestamp el).

(** [twopc.WriteBatch] is an empty interface; the worker downcasts it with
    a type assertion to [*ExecLog].  Any other dynamic type is [WBOther]. *)
Inductive WriteBatch : Type :=
| WBExecLog (el : ExecLog)
| WBOther.

(** The part of [database/sql] the worker calls.  [World] is the state of
    the database engine as a whole, threaded through every call; [Tx] is
    the [*sql.Tx] handle; [Ctx] the [context.Context] passed down.
    [BeginTx] returns either a handle or an error, as [sql.DB.BeginTx]
    does (the handle is nil exactly when the error is not). *)
Class SqlEngine : Type := {
  World : Type;
  Tx    : Type;
  Ctx   : Type;
  BeginTx     : Ctx -> World -> World * (Tx + error);
  ExecContext : Tx -> Ctx -> string -> World -> World * option error;
  TxRollback  : Tx -> World -> World * option error;
  TxCommit    : Tx -> World -> World * option error
}.

Section WithEngine.

Context {E : SqlEngine}.

(** [type Storage struct]; the mutex is held across each phase method, so
    a method is one atomic transition and the lock is not represented.
    The [db] handle is the engine itself. *)
Record Storage : Type := mkStorage {
  dsn     : string;
  tx      : option Tx;
  id      : TxID;
  queries : list string
}.

(** The error of the two [fmt.Errorf("twopc: inconsistent state, ...")]
    calls: it formats the stored id. *)
Definition inconsistent (s : Storage) : error :=
  ErrInconsistentState (ConnectionID (id s)) (SeqNo (id s)) (Timestamp (id s)).

(** [Storage.Prepare]: Prepare implements prepare method of two-phase
    commit worker. *)
Definition Prepare (ctx : Ctx) (wb : WriteBatch) (s : Storage) (w : World)
  : Storage * World * option error :=
  match wb with
  | WBOther => (s, w, Some ErrUnexpectedBatchType)
  | WBExecLog el =>
      match tx s with
      | Some _ =>
          if equalTxID (id s) (txidOf el)
          then (mkStorage (dsn s) (tx s) (id s) (el_Queries el), w, None)
          else (s, w, Some (inconsistent s))
      | None =>
          match BeginTx ctx w with
          | (w', inr err) => (mkStorage (dsn s) None (id s) (queries s), w', Some err)
          | (w', inl t) =>
              (mkStorage (dsn s) (Some t) (txidOf el) (el_Queries el), w', None)
          end
      end
  end.

(** The [for _, q := range s.queries] loop of Commit: runs the statements
    in order and stops at the first error, which it returns together with
    the world reached. *)
Fixpoint execAll (t : Tx) (ctx : Ctx) (qs : list string) (w : World)
  : World * option error :=
  match qs with
  | [] => (w, None)
  | q :: rest =>
      match ExecContext t ctx q w with
      | (w', Some err) => (w', Some err)
      | (w', None) => execAll t ctx rest w'
      end
  end.

(** [Storage.Commit]: Commit implements commit method of two-phase commit
    worker. *)
Definition Commit (ctx : Ctx) (wb : WriteBatch) (s : Storage) (w : World)
  : Storage * World * option error :=
  match wb with
  | WBOther => (s, w, Some ErrUnexpectedBatchType)
  | WBExecLog el =>
      match tx s with
      | Some t =>
          if equalTxID (id s) (txidOf el)
          then
            match execAll t ctx (queries s) w with
            | (w', Some err) =>
                let (w'', _) := TxRollback t w' in
                (mkStorage (dsn s) None (id s) [], w'', Some err)
            | (w', None) => (s, w', None)
            end
          else (s, w, Some (inconsistent s))
      | None => (s, w, Some ErrTxNotPrepared)
      end
  end.

(** [Storage.Rollback]: Rollback implements rollback method of two-phase
    commit worker. *)
Definition Rollback (ctx : Ctx) (wb : WriteBatch) (s : Storage) (w : World)
  : Storage * World * option error :=
  match wb with
  | WBOther => (s, w, Some ErrUnexpectedBatchType)
  | WBExecLog el =>
      if negb (equalTxID (id s) (txidOf el))
      then (s, w, Some (inconsistent s))
      else
        match tx s with
        | Some t =>
            let (w', _) := TxRollback t w in
            (mkStorage (dsn s) None (id s) [], w', None)
        | None => (s, w, None)
        end
  end.

End WithEngine.

Arguments Storage {E}.
Arguments mkStorage {E}.

End Storage.

(** Sequences of phase calls on one storage, as a coordinator (or several)
    issues them. *)
Module StorageCalls.

Import Storage.

Inductive Phase : Type := PhPrepare | PhCommit | PhRollback.

Section WithEngine.

Context {E : SqlEngine}.

(** One phase method, chosen by name. *)
Definition call (ph : Phase) (ctx : Ctx) (wb : WriteBatch) (s : Storage)
  (w : World) : Storage * World * option error :=
  match ph with
  | PhPrepare => Prepare ctx wb s w
  | PhCommit => Commit ctx wb s w
  | PhRollback => Rollback ctx wb s w
  end.

(** Calls made one after the other on the same storage; the results are
    collected in call order. *)
Fixpoint calls (cs : list (Phase * WriteBatch)) (ctx : Ctx) (s : Storage)
  (w : World) : Storage * World * list (option error) :=
  match cs with
  | [] => (s, w, [])
  | (ph, wb) :: rest =>
      match call ph ctx wb s w with
      | (s1, w1, r) =>
          match calls rest ctx s1 w1 with
          | (s2, w2, rs) => (s2, w2, r :: rs)
          end
      end
  end.

End WithEngine.

End StorageCalls.

(* ===================================================================== *)
(** ** package sqlchain: the block index *)
(* ===================================================================== *)

Module BlockIndex.

(** [int32] arithmetic: the value of a mathematical integer once stored in
    a signed 32-bit field. *)
Definition wrap32 (z : Z) : Z := (z + 2 ^ 31) mod 2 ^ 32 - 2 ^ 31.

(** The conversion [uint32(x)] of an [int32]. *)
Definition uint32 (z : Z) : Z := z mod 2 ^ 32.

(** The conversion [byte(x)] of an unsigned integer. *)
Definition byte (z : Z) : Z := Z.land z 255.

(** [type blockNode struct]; a nil [parent] is [None].  [hash] is the
    [hash.Hash] array, one [Z] in [0, 256) per byte. *)
#[warnings="-register-all"]
Inductive blockNode : Type := mkBlockNode {
  parent : option blockNode;
  hash   : list Z;
  height : Z
}.

(** [func newBlockNode(header, parent)]; of the header only [BlockHash] is
    read. *)
Definition newBlockNode (BlockHash : list Z) (parent : option blockNode)
  : blockNode :=
  match parent with
  | Some p => mkBlockNode (Some p) BlockHash (wrap32 (height p + 1))
  | None => mkBlockNode None BlockHash 0
  end.

(** The loop of [ancestor]:
    [for ancestor != nil && ancestor.height != height] follows [parent]. *)
Fixpoint walk (a : blockNode) (h : Z) : option blockNode :=
  match a with
  | mkBlockNode p _ ht =>
      if negb (ht =? h)
      then match p with
           | Some p' => walk p' h
           | None => None
           end
      else Some a
  end.

(** [func (bn *blockNode) ancestor(height int32)] *)
Definition ancestor (bn : blockNode) (h : Z) : option blockNode :=
  if (h <? 0) || (h >? height bn) then None else walk bn h.

(** The chain invariant of the data model: genesis has height 0 and no
    parent, every other node is one above its parent. *)
Fixpoint wellFormed (n : blockNode) : Prop :=
  match n with
  | mkBlockNode None _ ht => ht = 0
  | mkBlockNode (Some p) _ ht => ht = height p + 1 /\ wellFormed p
  end.

(** [binary.BigEndian.PutUint32]: the four bytes it stores, in order. *)
Definition PutUint32 (v : Z) : list Z :=
  [byte (Z.shiftr v 24); byte (Z.shiftr v 16); byte (Z.shiftr v 8); byte v].

(** [binary.BigEndian.Uint32]: the value four bytes decode to. *)
Definition Uint32 (b : list Z) : Z :=
  match b with
  | [b0; b1; b2; b3] =>
      Z.lor (Z.lor (Z.lor b3 (Z.shiftl b2 8)) (Z.shiftl b1 16)) (Z.shiftl b0 24)
  | _ => 0
  end.

(** Storing [data] into [buf] from index [lo] on, as a write through the
    sub-slice [buf[lo:lo+len(data)]] does. *)
Definition store (buf : list Z) (lo : nat) (data : list Z) : list Z :=
  take lo buf ++ data ++ drop (lo + length data) buf.

(** The bytes Go's builtin [copy(dst, src)] moves: the first
    [min(len(dst), len(src))] of [src]. *)
Definition copied (dstLen : nat) (src : list Z) : list Z :=
  take (Nat.min dstLen (length src)) src.

(** [func (bn *blockNode) indexKey() []byte], with [hash.HashSize] as a
    parameter (the constant is declared in package [hash]).  The slice
    expression [indexKey[4:hash.HashSize]] has length [HashSize - 4]. *)
Definition indexKey (HashSize : nat) (bn : blockNode) : list Z :=
  let indexKey := replicate (HashSize + 4) 0 in
  let indexKey := store indexKey 0 (PutUint32 (uint32 (height bn))) in
  let indexKey := store indexKey 4 (copied (HashSize - 4) (hash bn)) in
  indexKey.

(** A chain of three blocks built with [newBlockNode], with 32-byte
    hashes, for running the functions above. *)
Definition hashOf (first : Z) : list Z :=
  map (fun i => first + Z.of_nat i) (seq 0 32).

Definition genesis : blockNode := newBlockNode (hashOf 1) None.
Definition block1 : blockNode := newBlockNode (hashOf 41) (Some genesis).
Definition block2 : blockNode := newBlockNode (hashOf 81) (Some block1).

(** Two genesis nodes whose hashes differ only in their last four bytes,
    and a node at the largest height an [int32] holds. *)
Definition genesisA : blockNode := mkBlockNode None (hashOf 1) 0.
Definition genesisB : blockNode :=
  mkBlockNode None (take 28 (hashOf 1) ++ [201; 202; 203; 204]) 0.
Definition highest : blockNode := mkBlockNode None (hashOf 1) 2147483647.

(** Field assignments through the receiver pointer. *)
Definition setHash (bn : blockNode) (h : list Z) : blockNode :=
  mkBlockNode (parent bn) h (height bn).
Definition setParent (bn : blockNode) (p : option blockNode) : blockNode :=
  mkBlockNode p (hash bn) (height bn).
Definition setHeight (bn : blockNode) (ht : Z) : blockNode :=
  mkBlockNode (parent bn) (hash bn) ht.

(** [func (bn *blockNode) initBlockNode(head, parent)]: the node [bn]
    after the call. *)
Definition initBlockNode (bn : blockNode) (BlockHash : list Z)
  (parent : option blockNode) : blockNode :=
  let bn := setHash bn BlockHash in
  let bn := setParent bn None in
  let bn := setHeight bn 0 in
  match parent with
  | Some p =>
      let bn := setParent bn (Some p) in
      setHeight bn (wrap32 (height p + 1))
  | None => bn
  end.

(** Following the [parent] link [k] times; nil once the chain ends. *)
Fixpoint nthParent (k : nat) (n : blockNode) : option blockNode :=
  match k with
  | O => Some n
  | S k' =>
      match parent n with
      | Some p => nthParent k' p
      | None => None
      end
  end.

(** [type blockIndex struct]: the map from block hash to node.  The
    [cfg] pointer is stored and never read by the methods below; the
    read-write lock makes each method one atomic step. *)
Record blockIndex : Type := mkBlockIndex {
  index : gmap (list Z) blockNode
}.

(** [func newBlockIndex(cfg)] *)
Definition newBlockIndex : blockIndex := mkBlockIndex ∅.

(** [func (bi *blockIndex) AddBlock(newBlock)] *)
Definition AddBlock (newBlock : blockNode) (bi : blockIndex) : blockIndex :=
  mkBlockIndex (<[hash newBlock := newBlock]> (index bi)).

(** [func (bi *blockIndex) HasBlock(hash)]: the comma-ok form of the map
    read. *)
Definition HasBlock (h : list Z) (bi : blockIndex) : bool :=
  match index bi !! h with
  | Some _ => true
  | None => false
  end.

(** [func (bi *blockIndex) LookupNode(hash)]: a missing key reads as the
    nil pointer. *)
Definition LookupNode (h : list Z) (bi : blockIndex) : option blockNode :=
  index bi !! h.

(** [bytes.Compare(a, b) < 0] on byte strings: the lexicographic order in
    which a store keyed by [indexKey] keeps its entries. *)
Fixpoint bytesLess (a b : list Z) : bool :=
  match a, b with
  | [], [] => false
  | [], _ :: _ => true
  | _ :: _, [] => false
  | x :: a', y :: b' => (x <? y) || ((x =? y) && bytesLess a' b')
  end.

End BlockIndex.

(* ===================================================================== *)
(** ** package kayak: the mock transport of the tests *)
(* ===================================================================== *)

Module Transport.

Section WithPayload.

(** The payloads are [interface{}] values; the transport never looks
    inside them. *)
Context {Payload : Type}.

(** [type MockResponse struct] *)
Record MockResponse : Type := mkMockResponse {
  ResponseID : N;
  Payload_   : Payload;
  Error      : option error
}.

(** [type MockRequest struct], without the back pointer to the transport
    and without the context, whose firing is an input of the loop. *)
Record MockRequest : Type := mkMockRequest {
  RequestID : N;
  NodeID    : string;
  Method    : string;
  ReqPayload : Payload
}.

(** [type MockTransport struct]: the two buffered channels as FIFO lists
    (head = next to be received) and the [giveUp] map. *)
Record MockTransport : Type := mkMockTransport {
  nodeID    : string;
  queue     : list MockRequest;
  waitQueue : list MockResponse;
  giveUp    : gmap N bool
}.

(** Reading a Go [map[uint64]bool]: a missing key reads as [false]. *)
Definition gaveUp (m : MockTransport) (k : N) : bool :=
  default false (giveUp m !! k).

(** The case the [select] statement takes in one turn of the loop: the
    context is done (with [ctx.Err()]), or a response is received from
    [waitQueue]. *)
Inductive Selected : Type :=
| CtxDone (err : error)
| Received.

(** What one turn of the loop does: return from [sendRequest], or go
    round again. *)
Inductive Outcome : Type :=
| Return (v : option Payload) (err : option error)
| Continue.

(** One turn of the [for { select { ... } }] loop of [sendRequest] for the
    request [r].  [None]: the selected case cannot fire (nothing to receive
    on [waitQueue]). *)
Definition loopBody (r : MockRequest) (c : Selected) (m : MockTransport)
  : option (MockTransport * Outcome) :=
  match c with
  | CtxDone err =>
      Some (mkMockTransport (nodeID m) (queue m) (waitQueue m)
              (<[RequestID r := true]> (giveUp m)),
            Return None (Some err))
  | Received =>
      match waitQueue m with
      | [] => None
      | res :: rest =>
          if negb (N.eqb (ResponseID res) (RequestID r))
          then
            if negb (gaveUp m (ResponseID res))
            then Some (mkMockTransport (nodeID m) (queue m) (rest ++ [res])
                         (giveUp m), Continue)
            else Some (mkMockTransport (nodeID m) (queue m) rest
                         (delete (ResponseID res) (giveUp m)), Continue)
          else Some (mkMockTransport (nodeID m) (queue m) rest (giveUp m),
                     Return (Some (Payload_ res)) (Error res))
      end
  end.

(** The loop, driven by the sequence of cases the [select] takes.  [None]
    when the sequence ends (or cannot go on) before the function
    returns. *)
Fixpoint receiveLoop (r : MockRequest) (cs : list Selected) (m : MockTransport)
  : option (MockTransport * option Payload * option error) :=
  match cs with
  | [] => None
  | c :: cs' =>
      match loopBody r c m with
      | None => None
      | Some (m', Return v err) => Some (m', v, err)
      | Some (m', Continue) => receiveLoop r cs' m'
      end
  end.

(** [func (m *MockRequest) SendResponse(v, err)], on the transport the
    request went through. *)
Definition SendResponse (r : MockRequest) (v : Payload) (err : option error)
  (m : MockTransport) : MockTransport :=
  mkMockTransport (nodeID m) (queue m)
    (waitQueue m ++ [mkMockResponse (RequestID r) v err]) (giveUp m).

End WithPayload.

Arguments MockResponse : clear implicits.
Arguments MockRequest : clear implicits.
Arguments MockTransport : clear implicits.
Arguments Outcome : clear implicits.

(** A transport to run the loop on: node "a" has sent request 7 to node
    "b", whose wait queue holds the answers to requests 5 and 6.  In
    [waitingGaveUp5] the caller of request 5 has given up. *)
Definition req7 : MockRequest string := mkMockRequest 7%N "a" "Test" "happy"%string.
Definition res5 : MockResponse string := mkMockResponse 5%N "five"%string None.
Definition res6 : MockResponse string := mkMockResponse 6%N "six"%string None.

Definition waiting : MockTransport string :=
  mkMockTransport "b" [req7] [res5; res6] ∅.
Definition waitingGaveUp5 : MockTransport string :=
  mkMockTransport "b" [req7] [res5; res6] {[ 5%N := true ]}.

(** More transports to run on: [idle] has no request pending; in
    [answered] the answer to request 7 waits behind the answer to
    request 5. *)
Definition res7 : MockResponse string := mkMockResponse 7%N "happy too"%string None.
Definition req8 : MockRequest string := mkMockRequest 8%N "c" "Test" "happy"%string.
Definition idle : MockTransport string := mkMockTransport "b" [] [res5; res6] ∅.
Definition answered : MockTransport string := mkMockTransport "b" [] [res5; res7] ∅.

Section Router.

Context {Payload : Type}.

(** A response that, to the caller of [r], is someone else's and not
    abandoned: not the caller's id, and not marked in the gave-up map
    [g]. *)
Definition stranger (r : MockRequest Payload) (g : gmap N bool)
  (res : MockResponse Payload) : Prop :=
  ResponseID res <> RequestID r /\ default false (g !! ResponseID res) = false.

(** The send [m.queue <- r] that opens [sendRequest]. *)
Definition enqueue (r : MockRequest Payload) (m : MockTransport Payload)
  : MockTransport Payload :=
  mkMockTransport (nodeID m) (queue m ++ [r]) (waitQueue m) (giveUp m).

(** A receive from the channel that [Process] returns: the oldest queued
    request, or nothing to receive. *)
Definition recvRequest (m : MockTransport Payload)
  : option (MockRequest Payload * MockTransport Payload) :=
  match queue m with
  | [] => None
  | r :: rest => Some (r, mkMockTransport (nodeID m) rest (waitQueue m) (giveUp m))
  end.

(** What happens on a transport while a caller is inside [sendRequest]:
    a turn of the caller's own loop, or a step of another goroutine that
    shares the transport.  The other goroutines are the server, which
    receives the oldest request from [Process] and answers requests with
    [SendResponse], and the other callers, which enqueue their requests
    and run their own receive loops on the same wait queue and gave-up
    map. *)
Inductive Action : Type :=
| Own (c : Selected)
| Serve
| Respond (r' : MockRequest Payload) (v : Payload) (err : option error)
| OtherSend (r' : MockRequest Payload)
| OtherTurn (r' : MockRequest Payload) (c : Selected).

(** The step of another goroutine; [None] when it cannot be taken (no
    request to receive, nothing on the wait queue).  What another
    caller's turn returns to that caller is of no concern here, only
    what it does to the transport. *)
Definition otherStep (a : Action) (m : MockTransport Payload)
  : option (MockTransport Payload) :=
  match a with
  | Own _ => None
  | Serve =>
      match recvRequest m with
      | Some (_, m') => Some m'
      | None => None
      end
  | Respond r' v err => Some (SendResponse r' v err m)
  | OtherSend r' => Some (enqueue r' m)
  | OtherTurn r' c =>
      match loopBody r' c m with
      | Some (m', _) => Some m'
      | None => None
      end
  end.

(** The [for { select { ... } }] loop of [sendRequest] for the request
    [r], with the other goroutines running in between its turns, in the
    order the schedule gives.  [None] when the schedule ends (or cannot
    go on) before the function returns. *)
Fixpoint sendLoop (r : MockRequest Payload) (sched : list Action)
  (m : MockTransport Payload)
  : option (MockTransport Payload * option Payload * option error) :=
  match sched with
  | [] => None
  | Own c :: rest =>
      match loopBody r c m with
      | None => None
      | Some (m', Return v err) => Some (m', v, err)
      | Some (m', Continue) => sendLoop r rest m'
      end
  | a :: rest =>
      match otherStep a m with
      | Some m' => sendLoop r rest m'
      | None => None
      end
  end.

(** [func (m *MockTransport) sendRequest(req Request)]: enqueue the
    request, then wait in the loop; what it returns is the transport as
    the call leaves it, the payload and the error. *)
Definition sendRequest (r : MockRequest Payload) (sched : list Action)
  (m : MockTransport Payload)
  : option (MockTransport Payload * option Payload * option error) :=
  sendLoop r sched (enqueue r m).

(** Whether an action is an answer to the request with id [k]. *)
Definition answersTo (k : N) (a : Action) : bool :=
  match a with
  | Respond r' _ _ => N.eqb (RequestID r') k
  | _ => false
  end.

(** [type MockTransportRouter struct]; the map holds the transports
    themselves, so that what a caller does to a transport is seen by
    everyone who looks it up (the Go map holds pointers). *)
Record MockTransportRouter : Type := mkMockTransportRouter {
  reqSeq     : N;
  transports : gmap string (MockTransport Payload)
}.

(** The transport literal of [getTransport]: two empty channels and an
    empty [giveUp] map. *)
Definition newTransport (node : string) : MockTransport Payload :=
  mkMockTransport node [] [] ∅.

(** [func (m *MockTransportRouter) getTransport(nodeID)]: the router after
    the call and the transport returned. *)
Definition getTransport (node : string) (rt : MockTransportRouter)
  : MockTransportRouter * MockTransport Payload :=
  match transports rt !! node with
  | Some t => (rt, t)
  | None =>
      (mkMockTransportRouter (reqSeq rt)
         (<[node := newTransport node]> (transports rt)),
       newTransport node)
  end.

(** [func (m *MockTransportRouter) ResetTransport(nodeID)] *)
Definition ResetTransport (node : string) (rt : MockTransportRouter)
  : MockTransportRouter :=
  match transports rt !! node with
  | Some _ => mkMockTransportRouter (reqSeq rt) (delete node (transports rt))
  | None => rt
  end.

(** [func (m *MockTransportRouter) ResetAll()] *)
Definition ResetAll (rt : MockTransportRouter) : MockTransportRouter :=
  mkMockTransportRouter (reqSeq rt) ∅.

(** [func (m *MockTransportRouter) getReqID()]:
    [atomic.AddUint64(&m.reqSeq, 1)] adds modulo 2^64 and returns the new
    value. *)
Definition getReqID (rt : MockTransportRouter) : MockTransportRouter * N :=
  let v := ((reqSeq rt + 1) mod 2 ^ 64)%N in
  (mkMockTransportRouter v (transports rt), v).

(** [k] calls of [getReqID] in a row: the router after them and the ids
    handed out, oldest first. *)
Fixpoint getReqIDs (k : nat) (rt : MockTransportRouter)
  : MockTransportRouter * list N :=
  match k with
  | O => (rt, [])
  | S k' =>
      let (rt1, v) := getReqID rt in
      let (rt2, vs) := getReqIDs k' rt1 in
      (rt2, v :: vs)
  end.

End Router.

Arguments MockTransportRouter : clear implicits.
Arguments Action : clear implicits.

End Transport.

(* ===================================================================== *)
(** ** package twopc: the coordinator and the Raft worker of its tests *)
(* ===================================================================== *)

Module TwoPC.

(** The cancellable context a [Put] derives from its timeout; a worker or
    a hook that sees it fire answers with the cancellation cause, which
    reaches the coordinator as that call's error. *)
Definition Ctx : Type := N.

(** A hook: a gate function from the context to an error. *)
Definition Hook : Type := Ctx -> option error.

(** [type Options struct], as the tests build it: the timeout (a
    [time.Duration], in nanoseconds) and three optional hooks. *)
Record Options : Type := mkOptions {
  timeout        : N;
  beforePrepare  : option Hook;
  beforeCommit   : option Hook;
  beforeRollback : option Hook
}.

(** [type Worker interface]: the three phase methods, acting on the
    worker's own state [W] for a batch of type [B]. *)
Class Worker (W B : Type) : Type := {
  Prepare  : Ctx -> B -> W -> W * option error;
  Commit   : Ctx -> B -> W -> W * option error;
  Rollback : Ctx -> B -> W -> W * option error
}.

Section Coordinator.

Context {W B : Type} {WK : Worker W B}.

(** Calling an optional hook; one that is not configured lets the phase
    through. *)
Definition runHook (h : option Hook) (ctx : Ctx) : option error :=
  match h with
  | Some f => f ctx
  | None => None
  end.

(** Dispatching one phase method to all workers and joining: every worker
    moves to the state its own call leaves, and the errors come back in
    worker order. *)
Definition dispatch (f : W -> W * option error) (ws : list W)
  : list W * list (option error) :=
  (map (fun w => fst (f w)) ws, map (fun w => snd (f w)) ws).

(** The first error of a phase, in worker order. *)
Fixpoint firstError (errs : list (option error)) : option error :=
  match errs with
  | [] => None
  | Some e :: _ => Some e
  | None :: rest => firstError rest
  end.

(** Modelled from the spec: the coordinator's rollback step ([twopc.go] is
    not among the sources).  Section 4.3, step 4: invoke [beforeRollback];
    its error is not surfaced and does not stop the rollback; dispatch
    [Rollback] to all workers; rollback errors are logged, not surfaced.
    The result is the workers' states and what the hook answered. *)
Definition rollback (o : Options) (ctx : Ctx) (wb : B) (ws : list W)
  : list W * option error :=
  let hookErr := runHook (beforeRollback o) ctx in
  (fst (dispatch (Rollback ctx wb) ws), hookErr).

(** Modelled from the spec: [Coordinator.Put] ([twopc.go] is not among the
    sources), following the seven steps of section 4.3.  The parallel
    fan-out of a phase is [dispatch]; the wall-clock deadline is the
    context handed to every call. *)
Definition Put (o : Options) (ws : list W) (wb : B) : list W * option error :=
  let ctx := timeout o in
  match runHook (beforePrepare o) ctx with
  | Some e => (ws, Some e)
  | None =>
      let (ws1, errs1) := dispatch (Prepare ctx wb) ws in
      match firstError errs1 with
      | Some e => (fst (rollback o ctx wb ws1), Some e)
      | None =>
          match runHook (beforeCommit o) ctx with
          | Some e => (fst (rollback o ctx wb ws1), Some e)
          | None =>
              let (ws2, errs2) := dispatch (Commit ctx wb) ws1 in
              match firstError errs2 with
              | Some e => (fst (rollback o ctx wb ws2), Some e)
              | None => (ws2, None)
              end
          end
      end
  end.

End Coordinator.

(** *** The Raft node of [twopc_test.go] *)

(** [type RaftTxState int] *)
Inductive RaftTxState : Type := Initailized | Prepared | Committed | RolledBack.

(** [type TestPolicy int] *)
Inductive TestPolicy : Type := AllGood | FailOnPrepare | FailOnCommit.

Definition RaftTxState_eqb (x y : RaftTxState) : bool :=
  match x, y with
  | Initailized, Initailized | Prepared, Prepared
  | Committed, Committed | RolledBack, RolledBack => true
  | _, _ => false
  end.

(** [type RaftNodeRPCServer struct]: the two fields the mutex protects. *)
Record RaftNode : Type := mkRaftNode {
  txid  : N;
  state : RaftTxState
}.

(** [type RaftWriteBatchReq struct] *)
Record RaftWriteBatchReq : Type := mkRaftWriteBatchReq {
  TxID : N;
  Cmds : list string
}.

(** The response structs all have the same two fields. *)
Record RaftResp : Type := mkRaftResp {
  ErrCode   : Z;
  ErrString : string
}.

(** The batch as the worker methods see it: a [*RaftWriteBatchReq] or a
    value of another type. *)
Inductive RaftBatch : Type :=
| RaftReq (req : RaftWriteBatchReq)
| RaftOther.

Definition okResp : RaftResp := mkRaftResp 0 "".
Definition inconsistentResp : RaftResp :=
  mkRaftResp 1 "raft node is in inconsistent state".

(** [func (r *RaftNodeRPCServer) RPCPrepare]; [msg] is the text
    [fmt.Sprintf("failed to prepare for txid %d", req.TxID)]. *)
Definition RPCPrepare (policy : TestPolicy) (msg : string) (reqTxID : N)
  (r : RaftNode) : RaftNode * RaftResp :=
  let resp :=
    if RaftTxState_eqb (state r) Prepared && negb (N.eqb (txid r) reqTxID)
    then inconsistentResp else okResp in
  match policy with
  | FailOnPrepare => (r, mkRaftResp 2 msg)
  | _ => (mkRaftNode reqTxID Prepared, resp)
  end.

(** [func (r *RaftNodeRPCServer) RPCCommit] *)
Definition RPCCommit (policy : TestPolicy) (msg : string) (reqTxID : N)
  (r : RaftNode) : RaftNode * RaftResp :=
  let resp :=
    if negb (RaftTxState_eqb (state r) Prepared) || negb (N.eqb (txid r) reqTxID)
    then inconsistentResp else okResp in
  match policy with
  | FailOnCommit => (r, mkRaftResp 2 msg)
  | _ => (mkRaftNode (txid r) Committed, resp)
  end.

(** [func (r *RaftNodeRPCServer) RPCRollback] *)
Definition RPCRollback (reqTxID : N) (r : RaftNode) : RaftNode * RaftResp :=
  let resp :=
    if negb (RaftTxState_eqb (state r) Prepared) || negb (N.eqb (txid r) reqTxID)
    then inconsistentResp else okResp in
  (mkRaftNode (txid r) RolledBack, resp).

(** The tail of the three [RaftNode] methods:
    [if resp.ErrCode > 0 { err = fmt.Errorf(resp.ErrString) }]. *)
Definition respError (resp : RaftResp) : option error :=
  if ErrCode resp >? 0 then Some (ErrOther (ErrString resp)) else None.

(** The decimal text of a transaction id, for the [%d] of the messages. *)
Definition showTxID (n : N) : string :=
  DecimalString.NilZero.string_of_uint (N.to_uint n).

(** [RaftNode.Prepare], [RaftNode.Commit], [RaftNode.Rollback]: the type
    assertion, the RPC to the node's own server (the loopback call is
    taken to go through), and the translation of the response. *)
Definition raftCall (batch : RaftBatch)
  (rpc : N -> RaftNode -> RaftNode * RaftResp) (r : RaftNode)
  : RaftNode * option error :=
  match batch with
  | RaftOther => (r, Some (ErrOther "unexpected WriteBatch type"))
  | RaftReq req =>
      let (r', resp) := rpc (TxID req) r in
      (r', respError resp)
  end.

#[export] Instance raftWorker (policy : TestPolicy) : Worker RaftNode RaftBatch := {
  Prepare _ wb r :=
    raftCall wb (fun t => RPCPrepare policy
                   (String.append "failed to prepare for txid " (showTxID t)) t) r;
  Commit _ wb r :=
    raftCall wb (fun t => RPCCommit policy
                   (String.append "failed to commit for txid " (showTxID t)) t) r;
  Rollback _ wb r := raftCall wb RPCRollback r
}.

(** The coordinator options of [TestTwoPhaseCommit_WithHooks]: a timeout
    of five seconds and three hooks, each failing with its own error when
    its flag is set. *)
Definition beforePrepareError : error := ErrOther "before prepare error".
Definition beforeCommitError : error := ErrOther "before commit error".
Definition beforeRollbackError : error := ErrOther "before rollback error".

Definition hookOptions
  (errorBeforePrepare errorBeforeCommit errorBeforeRollback : bool) : Options :=
  mkOptions 5000000000
    (Some (fun _ => if errorBeforePrepare then Some beforePrepareError else None))
    (Some (fun _ => if errorBeforeCommit then Some beforeCommitError else None))
    (Some (fun _ => if errorBeforeRollback then Some beforeRollbackError else None)).

(** [testSetup] followed by [testNodeReset]: ten nodes, all in state
    [Initailized] with [txid] 0. *)
Definition nodes : list RaftNode := replicate 10 (mkRaftNode 0 Initailized).

End TwoPC.

(* ===================================================================== *)
(** ** package kayak: the mock two-phase-commit worker of the tests *)
(* ===================================================================== *)

Module MockWorker.

(** [int64] arithmetic: the value of a mathematical integer once stored in
    a signed 64-bit field. *)
Definition wrap64 (z : Z) : Z := (z + 2 ^ 63) mod 2 ^ 64 - 2 ^ 63.

(** [type MockTwoPCWorker struct] *)
Record MockTwoPCWorker : Type := mkMockTwoPCWorker {
  nodeID : string;
  state  : string;
  data   : Z;
  total  : Z
}.

(** The write batch is an [interface{}]: an [int64], or a value of some
    other type. *)
Inductive Batch : Type :=
| BInt64 (value : Z)
| BOther.

(** [reflect.DeepEqual(wb, w.data)]: the batch is an [int64] and has the
    stored value. *)
Definition deepEqual (wb : Batch) (d : Z) : bool :=
  match wb with
  | BInt64 v => v =? d
  | BOther => false
  end.

Definition errInvalidState : error := ErrOther "invalid state".
Definition errInvalidData : error := ErrOther "invalid data".
Definition errNotSame : error := ErrOther "commit data not same as last".

(** [func (w *MockTwoPCWorker) Prepare(ctx, wb)] *)
Definition Prepare (wb : Batch) (w : MockTwoPCWorker)
  : MockTwoPCWorker * option error :=
  if negb (String.eqb (state w) "") then (w, Some errInvalidState)
  else
    match wb with
    | BOther => (w, Some errInvalidData)
    | BInt64 value =>
        (mkMockTwoPCWorker (nodeID w) "prepared" value (total w), None)
    end.

(** [func (w *MockTwoPCWorker) Commit(ctx, wb)] *)
Definition Commit (wb : Batch) (w : MockTwoPCWorker)
  : MockTwoPCWorker * option error :=
  if negb (String.eqb (state w) "prepared") then (w, Some errInvalidState)
  else if negb (deepEqual wb (data w)) then (w, Some errNotSame)
  else (mkMockTwoPCWorker (nodeID w) "" (data w) (wrap64 (total w + data w)),
        None).

(** [func (w *MockTwoPCWorker) Rollback(ctx, wb)] *)
Definition Rollback (wb : Batch) (w : MockTwoPCWorker)
  : MockTwoPCWorker * option error :=
  if negb (String.eqb (state w) "prepared") then (w, Some errInvalidState)
  else if negb (deepEqual wb (data w)) then (w, Some errNotSame)
  else (mkMockTwoPCWorker (nodeID w) "" 0 (total w), None).

(** The three phase calls as one type, to speak about any of them. *)
Inductive Call : Type :=
| CallPrepare (wb : Batch)
| CallCommit (wb : Batch)
| CallRollback (wb : Batch).

Definition run (c : Call) (w : MockTwoPCWorker) : MockTwoPCWorker * option error :=
  match c with
  | CallPrepare wb => Prepare wb w
  | CallCommit wb => Commit wb w
  | CallRollback wb => Rollback wb w
  end.

(** A sequence of calls, one after the other, whatever each returns. *)
Definition runAll (cs : list Call) (w : MockTwoPCWorker) : MockTwoPCWorker :=
  fold_left (fun w c => fst (run c w)) cs w.

End MockWorker.

(* ===================================================================== *)
(** ** package storage: opening the database *)
(* ===================================================================== *)

Module StorageOpen.

(** What [openDB] uses of the [DSN] type of the package (declared in
    [dsn.go]) and of [database/sql].  [filename] is the struct field
    [d.filename]; [GetParam] returns the value and the found flag;
    [sqlOpen] is [sql.Open("sqlite3", dsn)], which either makes a new
    handle or fails, and moves the state [Driver] of the driver. *)
Class Env : Type := {
  DSN : Type;
  DB : Type;
  Driver : Type;
  NewDSN : string -> DSN + error;
  AddParam : string -> string -> DSN -> DSN;
  Format : DSN -> string;
  GetFileName : DSN -> string;
  GetParam : string -> DSN -> string * bool;
  filename : DSN -> string;
  sqlOpen : string -> Driver -> Driver * (DB + error)
}.

Section WithEnv.

Context {V : Env}.

(** The package variable [index]: the handles opened so far, by file
    name.  Its mutex is held for one map access at a time. *)
Definition Index : Type := gmap string DB.

(** The DSN as [openDB] rebuilds it. *)
Definition rebuilt (d : DSN) : DSN :=
  AddParam "_synchronous" "FULL" (AddParam "_journal_mode" "WAL" d).

(** [func openDB(dsn string) (db *sql.DB, err error)] *)
Definition openDB (dsn : string) (idx : Index) (drv : Driver)
  : Index * Driver * (DB + error) :=
  match NewDSN dsn with
  | inr err => (idx, drv, inr err)
  | inl d0 =>
      let d := rebuilt d0 in
      let fdsn := Format d in
      let fn := GetFileName d in
      let mode := fst (GetParam "mode" d) in
      let cache := fst (GetParam "cache" d) in
      if (String.eqb fn ":memory:" || String.eqb mode "memory")
         && negb (String.eqb cache "shared")
      then
        let (drv', r) := sqlOpen fdsn drv in (idx, drv', r)
      else
        match idx !! filename d with
        | Some db => (idx, drv, inl db)
        | None =>
            match sqlOpen fdsn drv with
            | (drv', inr err) => (idx, drv', inr err)
            | (drv', inl db) => (<[filename d := db]> idx, drv', inl db)
            end
        end
  end.

(** Whether [openDB] treats the DSN text as a private in-memory
    database. *)
Definition privateMemory (dsn : string) : bool :=
  match NewDSN dsn with
  | inr _ => false
  | inl d0 =>
      let d := rebuilt d0 in
      (String.eqb (GetFileName d) ":memory:"
       || String.eqb (fst (GetParam "mode" d)) "memory")
      && negb (String.eqb (fst (GetParam "cache" d)) "shared")
  end.

End WithEnv.

(** A small environment to run [openDB] in.  It stands in for [dsn.go] and
    the sqlite3 driver only as far as a run needs: a DSN text without a
    question mark is a file name without parameters, parameters are kept
    in a list in the order they were added, and the driver numbers the
    handles it opens. *)
Record plainDSN : Type := mkPlainDSN {
  pd_file   : string;
  pd_params : list (string * string)
}.

Definition plainGetParam (k : string) (d : plainDSN) : string * bool :=
  match find (fun kv => String.eqb (fst kv) k) (pd_params d) with
  | Some kv => (snd kv, true)
  | None => (""%string, false)
  end.

Definition plainEnv : Env := {|
  DSN := plainDSN;
  DB := nat;
  Driver := nat;
  NewDSN := fun s => inl (mkPlainDSN s []);
  AddParam := fun k v d => mkPlainDSN (pd_file d) (pd_params d ++ [(k, v)]);
  Format := pd_file;
  GetFileName := pd_file;
  GetParam := plainGetParam;
  filename := pd_file;
  sqlOpen := fun _ n => (S n, inl n)
|}.

End StorageOpen.

(* ===================================================================== *)
(** ** A database engine that records what it is asked to do *)
(* ===================================================================== *)

Module SqlLog.

(** The calls that reach the engine. *)
Inductive DBEvent : Type :=
| EvBegin
| EvExec (q : string)
| EvRollback
| EvCommit.

(** An instance of the engine interface used to run the worker on concrete
    inputs.  Its world is the history of calls.  The context is a flag
    saying whether it is already cancelled: as in [database/sql], a
    cancelled context makes [BeginTx] and [ExecContext] fail with the
    context's error.  The one statement the engine rejects is the text
    [FAIL] (not SQL), every other statement runs. *)
#[export] Instance logEngine : Storage.SqlEngine := {
  Storage.World := list DBEvent;
  Storage.Tx := unit;
  Storage.Ctx := bool;
  Storage.BeginTx cancelled w :=
    if cancelled then (w, inr (ErrOther "context canceled"))
    else (w ++ [EvBegin], inl tt);
  Storage.ExecContext _ cancelled q w :=
    if cancelled then (w, Some (ErrOther "context canceled"))
    else if String.eqb q "FAIL" then (w ++ [EvExec q], Some (ErrOther "syntax error"))
    else (w ++ [EvExec q], None);
  Storage.TxRollback _ w := (w ++ [EvRollback], None);
  Storage.TxCommit _ w := (w ++ [EvCommit], None)
}.

(** The same engine with a transaction whose rollback reports an error
    (as [sql.Tx.Rollback] does once the connection is gone). *)
Definition lostConnection : Storage.SqlEngine := {|
  Storage.World := list DBEvent;
  Storage.Tx := unit;
  Storage.Ctx := bool;
  Storage.BeginTx := Storage.BeginTx (SqlEngine := logEngine);
  Storage.ExecContext := Storage.ExecContext (SqlEngine := logEngine);
  Storage.TxRollback := fun _ w => (w ++ [EvRollback], Some (ErrOther "driver: bad connection"));
  Storage.TxCommit := fun _ w => (w, Some (ErrOther "driver: bad connection"))
|}.

(** A storage as [storage.New] returns it: no transaction, zero id, no
    statements. *)
Definition fresh : Storage.Storage :=
  Storage.mkStorage "file::memory:" None (Storage.mkTxID 0 0 0) [].

(** A storage holding the open transaction of batch (1, 1, 1) with the
    buffered statements [qs]. *)
Definition prepared (qs : list string) : Storage.Storage :=
  Storage.mkStorage "file::memory:" (Some tt) (Storage.mkTxID 1 1 1) qs.

Definition twoInserts : list string :=
  ["INSERT INTO t VALUES (1)"; "INSERT INTO t VALUES (2)"]%string.

Definition batch (c s t : N) (qs : list string) : Storage.WriteBatch :=
  Storage.WBExecLog (Storage.mkExecLog c s t qs).

End SqlLog.

(* ===================================================================== *)
(** * Properties of the storage worker *)
(* ===================================================================== *)

Module StorageFacts.

Import Storage.

Section WithEngine.

Context {E : SqlEngine}.

Lemma equalTxID_refl (x : TxID) : equalTxID x x = true.
Proof.
  unfold equalTxID. rewrite !N.eqb_refl. reflexivity.
Qed.

Lemma equalTxID_eq (x y : TxID) : equalTxID x y = true <-> x = y.
Proof.
  split.
  - unfold equalTxID. intros H.
    apply andb_prop in H as [H Ht]. apply andb_prop in H as [Hc Hs].
    apply N.eqb_eq in Hc, Hs, Ht.
    destruct x, y; simpl in *; congruence.
  - intros ->. apply equalTxID_refl.
Qed.

(** Running a list of statements is running its front and then its back,
    as long as the front does not fail. *)
Lemma execAll_app (t : Tx) (ctx : Ctx) (pre post : list string) (w w1 : World) :
  execAll t ctx pre w = (w1, None) ->
  execAll t ctx (pre ++ post) w = execAll t ctx post w1.
Proof.
  revert w. induction pre as [|q pre IH]; intros w H; simpl in *.
  - congruence.
  - destruct (ExecContext t ctx q w) as [w' [err|]]; [discriminate|].
    apply IH, H.
Qed.

(** The success path of Commit as the code has it: the statements have
    run, nothing else has happened, and the storage is what it was. *)
Lemma Commit_all_ok (ctx : Ctx) (el : ExecLog) (s : Storage) (t : Tx)
  (w w' : World) :
  tx s = Some t ->
  equalTxID (id s) (txidOf el) = true ->
  execAll t ctx (queries s) w = (w', None) ->
  Commit ctx (WBExecLog el) s w = (s, w', None).
Proof.
  intros Ht Hid Hexec. unfold Commit. rewrite Ht, Hid, Hexec. reflexivity.
Qed.

(** C2 (as amended).  Prepare on an ExecLog batch falls into four cases.
    With no transaction open it asks the database to begin one: if that
    succeeds it records the handle, the batch's TxID and statement list
    and returns success; if beginning fails it returns the database's
    error and the storage keeps its id and statements, with no
    transaction.  With a transaction open under the batch's TxID it
    replaces the buffered statements by the incoming ones and returns
    success.  With a transaction open under another TxID it fails with
    the inconsistent-state error that carries the current TxID. *)
Theorem Prepare_cases (ctx : Ctx) (el : ExecLog) (s : Storage) (w : World) :
  (tx s = None ->
     (forall w' t, BeginTx ctx w = (w', inl t) ->
        Prepare ctx (WBExecLog el) s w =
          (mkStorage (dsn s) (Some t) (txidOf el) (el_Queries el), w', None))
     /\ (forall w' err, BeginTx ctx w = (w', inr err) ->
        Prepare ctx (WBExecLog el) s w = (s, w', Some err)))
  /\ (forall t, tx s = Some t -> id s = txidOf el ->
        Prepare ctx (WBExecLog el) s w =
          (mkStorage (dsn s) (Some t) (id s) (el_Queries el), w, None))
  /\ (forall t, tx s = Some t -> id s <> txidOf el ->
        Prepare ctx (WBExecLog el) s w =
          (s, w, Some (ErrInconsistentState
                         (ConnectionID (id s)) (SeqNo (id s)) (Timestamp (id s))))).
Proof.
  repeat split.
  - intros w' t Hb. unfold Prepare. rewrite H, Hb. reflexivity.
  - intros w' err Hb. unfold Prepare. rewrite H, Hb.
    destruct s; simpl in *; subst; reflexivity.
  - intros t Ht Hid. unfold Prepare. rewrite Ht.
    apply equalTxID_eq in Hid. rewrite Hid. reflexivity.
  - intros t Ht Hid. unfold Prepare. rewrite Ht.
    destruct (equalTxID (id s) (txidOf el)) eqn:Heq.
    + apply equalTxID_eq in Heq. contradiction.
    + reflexivity.
Qed.

(** C3.  With a transaction open under the batch's TxID, Commit runs the
    buffered statements in list order; when the statements before [q] all
    succeed and [q] fails with [err], the transaction is rolled back in
    the world [q] left, the statements after [q] are never run, the handle
    and the buffer are cleared, and [err] is what Commit returns. *)
Theorem Commit_first_error (ctx : Ctx) (el : ExecLog) (s : Storage) (t : Tx)
  (pre post : list string) (q : string) (w w1 w2 : World) (err : error) :
  tx s = Some t ->
  equalTxID (id s) (txidOf el) = true ->
  queries s = pre ++ q :: post ->
  execAll t ctx pre w = (w1, None) ->
  ExecContext t ctx q w1 = (w2, Some err) ->
  Commit ctx (WBExecLog el) s w =
    (mkStorage (dsn s) None (id s) [], fst (TxRollback t w2), Some err).
Proof.
  intros Ht Hid Hq Hpre Hfail. unfold Commit.
  rewrite Ht, Hid, Hq, (execAll_app _ _ _ _ _ _ Hpre). simpl.
  rewrite Hfail. destruct (TxRollback t w2) as [w3 r]. reflexivity.
Qed.

(** C4 (as amended).  With no transaction open, Rollback on an ExecLog
    batch whose TxID equals the stored id returns success and changes
    nothing; on a batch with any other TxID it fails with the
    inconsistent-state error and changes nothing.  With a transaction open
    under the batch's TxID, Rollback rolls it back and clears the handle
    and the buffered statements. *)
Theorem Rollback_cases (ctx : Ctx) (el : ExecLog) (s : Storage) (w : World) :
  (tx s = None -> id s = txidOf el ->
     Rollback ctx (WBExecLog el) s w = (s, w, None))
  /\ (tx s = None -> id s <> txidOf el ->
     Rollback ctx (WBExecLog el) s w = (s, w, Some (inconsistent s)))
  /\ (forall t, tx s = Some t -> id s = txidOf el ->
     Rollback ctx (WBExecLog el) s w =
       (mkStorage (dsn s) None (id s) [], fst (TxRollback t w), None)).
Proof.
  repeat split.
  - intros Ht Hid. unfold Rollback.
    apply equalTxID_eq in Hid. rewrite Hid, Ht. reflexivity.
  - intros Ht Hid. unfold Rollback.
    destruct (equalTxID (id s) (txidOf el)) eqn:Heq.
    + apply equalTxID_eq in Heq. contradiction.
    + reflexivity.
  - intros t Ht Hid. unfold Rollback.
    apply equalTxID_eq in Hid. rewrite Hid, Ht. simpl.
    destruct (TxRollback t w). reflexivity.
Qed.

(** C9.  When a transaction is open and the incoming batch's TxID differs
    from the stored one, Prepare and Commit both return the
    inconsistent-state error and leave the storage (handle, id, buffered
    statements) and the database exactly as they were. *)
Theorem inconsistent_state_frame (ctx : Ctx) (el : ExecLog) (s : Storage)
  (t : Tx) (w : World) :
  tx s = Some t ->
  id s <> txidOf el ->
  Prepare ctx (WBExecLog el) s w = (s, w, Some (inconsistent s))
  /\ Commit ctx (WBExecLog el) s w = (s, w, Some (inconsistent s)).
Proof.
  intros Ht Hid.
  assert (Heq : equalTxID (id s) (txidOf el) = false).
  { destruct (equalTxID (id s) (txidOf el)) eqn:Heq; [|reflexivity].
    apply equalTxID_eq in Heq. contradiction. }
  unfold Prepare, Commit. rewrite Ht, Heq. split; reflexivity.
Qed.

(** C10.  With a transaction open under the batch's TxID, Rollback returns
    success whatever the database's rollback answers: its result is
    dropped, and the handle and the buffered statements are cleared. *)
Theorem Rollback_open_always_succeeds (ctx : Ctx) (el : ExecLog) (s : Storage)
  (t : Tx) (w : World) :
  tx s = Some t ->
  equalTxID (id s) (txidOf el) = true ->
  forall w' (dbErr : option error), TxRollback t w = (w', dbErr) ->
    Rollback ctx (WBExecLog el) s w = (mkStorage (dsn s) None (id s) [], w', None).
Proof.
  intros Ht Hid w' dbErr Hr. unfold Rollback. rewrite Hid, Ht. simpl.
  rewrite Hr. reflexivity.
Qed.

End WithEngine.

End StorageFacts.

(* ===================================================================== *)
(** * The storage worker on concrete inputs *)
(* ===================================================================== *)

Module StorageRuns.

Import Storage SqlLog.

Local Open Scope string_scope.

(** C1.  Commit on a prepared storage whose two statements both run: it
    returns success, but the engine has seen only the two statements (no
    commit of the transaction), and the storage still holds the open
    handle and both buffered statements. *)
Theorem Commit_success_leaves_transaction_open :
  Commit false (batch 1 1 1 []) (prepared twoInserts) [EvBegin] =
    (prepared twoInserts,
     [EvBegin; EvExec "INSERT INTO t VALUES (1)"; EvExec "INSERT INTO t VALUES (2)"],
     None)
  /\ tx (prepared twoInserts) = Some tt
  /\ queries (prepared twoInserts) <> []
  /\ ~ In EvCommit
        (snd (fst (Commit false (batch 1 1 1 []) (prepared twoInserts) [EvBegin]))).
Proof.
  simpl. repeat split; try discriminate.
  intros [H|[H|[H|[]]]]; discriminate.
Qed.

(** C2, as first stated, fails: no transaction is open, the context is
    already cancelled, so the database refuses to begin one; Prepare
    returns that error, not success, and records nothing. *)
Lemma Prepare_begin_failure :
  tx fresh = None
  /\ Prepare true (batch 1 1 1 ["INSERT INTO t VALUES (1)"]) fresh [] =
       (fresh, [], Some (ErrOther "context canceled"))
  /\ snd (Prepare true (batch 1 1 1 ["INSERT INTO t VALUES (1)"]) fresh []) <> None.
Proof.
  repeat split. simpl. discriminate.
Qed.

Lemma Prepare_cases_witness :
  Prepare false (batch 1 1 1 ["INSERT INTO t VALUES (1)"]) fresh [] =
    (prepared ["INSERT INTO t VALUES (1)"], [EvBegin], None)
  /\ Prepare true (batch 1 1 1 ["INSERT INTO t VALUES (1)"]) fresh [] =
    (fresh, [], Some (ErrOther "context canceled"))
  /\ Prepare false (batch 1 1 1 ["DELETE FROM t"]) (prepared ["INSERT INTO t VALUES (1)"]) [EvBegin] =
    (prepared ["DELETE FROM t"], [EvBegin], None)
  /\ Prepare false (batch 2 1 1 ["DELETE FROM t"]) (prepared ["INSERT INTO t VALUES (1)"]) [EvBegin] =
    (prepared ["INSERT INTO t VALUES (1)"], [EvBegin], Some (ErrInconsistentState 1 1 1)).
Proof.
  refine (conj _ (conj _ (conj _ _))).
  - pose proof (StorageFacts.Prepare_cases (E := logEngine) false
                  (mkExecLog 1 1 1 ["INSERT INTO t VALUES (1)"]) fresh [])
      as [Hnone _].
    destruct (Hnone eq_refl) as [Hok _].
    exact (Hok [EvBegin] tt eq_refl).
  - pose proof (StorageFacts.Prepare_cases (E := logEngine) true
                  (mkExecLog 1 1 1 ["INSERT INTO t VALUES (1)"]) fresh [])
      as [Hnone _].
    destruct (Hnone eq_refl) as [_ Hfail].
    exact (Hfail [] (ErrOther "context canceled") eq_refl).
  - pose proof (StorageFacts.Prepare_cases (E := logEngine) false
                  (mkExecLog 1 1 1 ["DELETE FROM t"])
                  (prepared ["INSERT INTO t VALUES (1)"]) [EvBegin])
      as [_ [Hsame _]].
    exact (Hsame tt eq_refl eq_refl).
  - pose proof (StorageFacts.Prepare_cases (E := logEngine) false
                  (mkExecLog 2 1 1 ["DELETE FROM t"])
                  (prepared ["INSERT INTO t VALUES (1)"]) [EvBegin])
      as [_ [_ Hdiff]].
    refine (Hdiff tt eq_refl _). simpl. discriminate.
Defined.

Lemma Commit_first_error_witness :
  Commit false (batch 1 1 1 [])
    (prepared ["INSERT INTO t VALUES (1)"; "FAIL"; "INSERT INTO t VALUES (3)"])
    [EvBegin] =
  (mkStorage "file::memory:" None (mkTxID 1 1 1) [],
   [EvBegin; EvExec "INSERT INTO t VALUES (1)"; EvExec "FAIL"; EvRollback],
   Some (ErrOther "syntax error")).
Proof.
  exact (StorageFacts.Commit_first_error (E := logEngine) false
           (mkExecLog 1 1 1 [])
           (prepared ["INSERT INTO t VALUES (1)"; "FAIL"; "INSERT INTO t VALUES (3)"])
           tt ["INSERT INTO t VALUES (1)"] ["INSERT INTO t VALUES (3)"] "FAIL"
           [EvBegin] [EvBegin; EvExec "INSERT INTO t VALUES (1)"]
           [EvBegin; EvExec "INSERT INTO t VALUES (1)"; EvExec "FAIL"]
           (ErrOther "syntax error")
           eq_refl eq_refl eq_refl eq_refl eq_refl).
Defined.

(** C4, as first stated, fails: a fresh storage has no transaction open
    and the zero id; Rollback with the batch (1, 0, 0) does not return
    success but the inconsistent-state error. *)
Lemma Rollback_no_tx_other_id_fails :
  tx fresh = None
  /\ Rollback false (batch 1 0 0 ["INSERT INTO t VALUES (1)"]) fresh [] =
       (fresh, [], Some (ErrInconsistentState 0 0 0))
  /\ snd (Rollback false (batch 1 0 0 ["INSERT INTO t VALUES (1)"]) fresh []) <> None.
Proof.
  repeat split. simpl. discriminate.
Qed.

Lemma Rollback_cases_witness :
  Rollback false (batch 0 0 0 []) fresh [] = (fresh, [], None)
  /\ Rollback false (batch 1 0 0 []) fresh [] =
       (fresh, [], Some (ErrInconsistentState 0 0 0))
  /\ Rollback false (batch 1 1 1 []) (prepared ["DELETE FROM t"]) [EvBegin] =
       (mkStorage "file::memory:" None (mkTxID 1 1 1) [], [EvBegin; EvRollback], None).
Proof.
  refine (conj _ (conj _ _)).
  - pose proof (StorageFacts.Rollback_cases (E := logEngine) false
                  (mkExecLog 0 0 0 []) fresh []) as [Hsame _].
    exact (Hsame eq_refl eq_refl).
  - pose proof (StorageFacts.Rollback_cases (E := logEngine) false
                  (mkExecLog 1 0 0 []) fresh []) as [_ [Hdiff _]].
    refine (Hdiff eq_refl _). simpl. discriminate.
  - pose proof (StorageFacts.Rollback_cases (E := logEngine) false
                  (mkExecLog 1 1 1 []) (prepared ["DELETE FROM t"]) [EvBegin])
      as [_ [_ Hopen]].
    exact (Hopen tt eq_refl eq_refl).
Defined.

Lemma inconsistent_state_frame_witness :
  Prepare false (batch 2 1 1 ["DELETE FROM t"]) (prepared ["INSERT INTO t VALUES (1)"]) [EvBegin] =
    (prepared ["INSERT INTO t VALUES (1)"], [EvBegin], Some (ErrInconsistentState 1 1 1))
  /\ Commit false (batch 2 1 1 ["DELETE FROM t"]) (prepared ["INSERT INTO t VALUES (1)"]) [EvBegin] =
    (prepared ["INSERT INTO t VALUES (1)"], [EvBegin], Some (ErrInconsistentState 1 1 1)).
Proof.
  refine (StorageFacts.inconsistent_state_frame (E := logEngine) false
            (mkExecLog 2 1 1 ["DELETE FROM t"])
            (prepared ["INSERT INTO t VALUES (1)"]) tt [EvBegin] eq_refl _).
  simpl. discriminate.
Defined.

(** The witness runs on the engine whose rollback reports an error: the
    error does not reach the caller. *)
Lemma Rollback_open_always_succeeds_witness :
  Rollback (E := lostConnection) false (batch 1 1 1 [])
    (mkStorage (E := lostConnection) "file:test.db" (Some tt) (mkTxID 1 1 1) ["DELETE FROM t"])
    [EvBegin] =
  (mkStorage (E := lostConnection) "file:test.db" None (mkTxID 1 1 1) [],
   [EvBegin; EvRollback], None).
Proof.
  exact (StorageFacts.Rollback_open_always_succeeds (E := lostConnection) false
           (mkExecLog 1 1 1 [])
           (mkStorage (E := lostConnection) "file:test.db" (Some tt) (mkTxID 1 1 1) ["DELETE FROM t"])
           tt [EvBegin] eq_refl eq_refl
           [EvBegin; EvRollback] (Some (ErrOther "driver: bad connection")) eq_refl).
Defined.

End StorageRuns.

(* ===================================================================== *)
(** * Properties of the block index *)
(* ===================================================================== *)

Module BlockIndexFacts.

Import BlockIndex.

(** Induction along the parent links of a chain. *)
Lemma chain_ind (P : blockNode -> Prop)
  (Hgenesis : forall h ht, P (mkBlockNode None h ht))
  (Hchild : forall p h ht, P p -> P (mkBlockNode (Some p) h ht)) :
  forall n, P n.
Proof.
  fix IH 1. intros [[p|] h ht].
  - apply Hchild, IH.
  - apply Hgenesis.
Qed.

Lemma wellFormed_height_nonneg (n : blockNode) : wellFormed n -> 0 <= height n.
Proof.
  induction n as [h ht|p h ht IH] using chain_ind; simpl.
  - lia.
  - intros [-> Hp]. specialize (IH Hp). lia.
Qed.

(** The loop finds the node at every height between genesis and its
    starting point. *)
Lemma walk_finds (n : blockNode) (h : Z) :
  wellFormed n -> 0 <= h <= height n ->
  exists a, walk n h = Some a /\ height a = h.
Proof.
  induction n as [hs ht|p hs ht IH] using chain_ind; simpl.
  - intros -> Hh. assert (h = 0) as -> by lia. simpl. eauto.
  - intros [-> Hp] Hh.
    destruct (Z.eqb_spec (height p + 1) h) as [Heq|Hne]; simpl.
    + eauto.
    + apply IH; [exact Hp|lia].
Qed.

(** A node made by [newBlockNode] on top of a well-formed chain keeps the
    chain well formed, as long as the height still fits the [int32]
    field. *)
Lemma newBlockNode_wellFormed (BlockHash : list Z) (parent : option blockNode) :
  match parent with
  | Some p => wellFormed p /\ height p + 1 < 2 ^ 31
  | None => True
  end ->
  wellFormed (newBlockNode BlockHash parent).
Proof.
  destruct parent as [p|]; simpl; [|reflexivity].
  intros [Hp Hlt]. split; [|exact Hp].
  pose proof (wellFormed_height_nonneg p Hp).
  unfold wrap32. rewrite Z.mod_small; lia.
Qed.

(** C6.  In a well-formed chain, [ancestor] answers nil for a height below
    0 or above the node's own, and for every height from 0 to the node's
    own it answers a node of exactly that height. *)
Theorem ancestor_height (n : blockNode) (h : Z) :
  wellFormed n ->
  (h < 0 \/ h > height n -> ancestor n h = None)
  /\ (0 <= h <= height n -> exists a, ancestor n h = Some a /\ height a = h).
Proof.
  intros Hwf. unfold ancestor. split.
  - intros Hout.
    destruct (Z.ltb_spec h 0); [reflexivity|].
    destruct (Z.gtb_spec h (height n)); [reflexivity|]. lia.
  - intros Hin.
    destruct (Z.ltb_spec h 0); [lia|].
    destruct (Z.gtb_spec h (height n)); [lia|]. simpl.
    apply walk_finds; assumption.
Qed.

(** The bits of a [byte] conversion: the low eight of its argument. *)
Lemma byte_testbit (x n : Z) :
  0 <= n -> Z.testbit (byte x) n = if n <? 8 then Z.testbit x n else false.
Proof.
  intros Hn. unfold byte. change 255 with (Z.ones 8).
  rewrite Z.land_spec. destruct (Z.ltb_spec n 8).
  - rewrite Z.ones_spec_low by lia. apply andb_true_r.
  - rewrite Z.ones_spec_high by lia. apply andb_false_r.
Qed.

(** The bits of one byte of [PutUint32] moved back into place. *)
Lemma placed_byte_testbit (v k n : Z) :
  0 <= k -> 0 <= n ->
  Z.testbit (Z.shiftl (byte (Z.shiftr v k)) k) n =
    if (k <=? n) && (n <? k + 8) then Z.testbit v n else false.
Proof.
  intros Hk Hn. rewrite Z.shiftl_spec by lia.
  destruct (Z.leb_spec k n); simpl.
  - rewrite byte_testbit by lia. rewrite Z.shiftr_spec by lia.
    replace (n - k + k) with n by lia.
    destruct (Z.ltb_spec (n - k) 8), (Z.ltb_spec n (k + 8)); try lia; reflexivity.
  - apply Z.testbit_neg_r. lia.
Qed.

(** Big-endian decoding undoes big-endian encoding on 32-bit values. *)
Lemma Uint32_PutUint32 (v : Z) : 0 <= v < 2 ^ 32 -> Uint32 (PutUint32 v) = v.
Proof.
  intros Hv. unfold Uint32, PutUint32.
  apply Z.bits_inj'. intros n Hn.
  rewrite !Z.lor_spec, !placed_byte_testbit by lia.
  rewrite byte_testbit by lia.
  destruct (Z.ltb_spec n 8); simpl.
  { destruct (Z.leb_spec 8 n), (Z.leb_spec 16 n), (Z.leb_spec 24 n); try lia.
    simpl. rewrite !orb_false_r. reflexivity. }
  destruct (Z.leb_spec 8 n); [|lia].
  destruct (Z.ltb_spec n (8 + 8)); simpl.
  { destruct (Z.leb_spec 16 n), (Z.leb_spec 24 n); try lia.
    simpl. rewrite !orb_false_r. reflexivity. }
  destruct (Z.leb_spec 16 n); [|lia].
  destruct (Z.ltb_spec n (16 + 8)); simpl.
  { destruct (Z.leb_spec 24 n); try lia. simpl. rewrite !orb_false_r. reflexivity. }
  destruct (Z.leb_spec 24 n); [|lia].
  destruct (Z.ltb_spec n (24 + 8)); simpl; [reflexivity|].
  symmetry. destruct (Z.eq_dec v 0) as [->|Hnz]; [apply Z.bits_0|].
  apply Z.bits_above_log2; [lia|].
  apply Z.lt_le_trans with 32; [|lia].
  apply Z.log2_lt_pow2; lia.
Qed.

Lemma uint32_range (z : Z) : 0 <= uint32 z < 2 ^ 32.
Proof. unfold uint32. apply Z.mod_pos_bound. lia. Qed.

(** The layout of the key: four bytes of height, the first [HashSize - 4]
    bytes of the hash, and four bytes that stay zero. *)
Lemma indexKey_layout (HashSize : nat) (bn : blockNode) :
  (4 <= HashSize)%nat ->
  length (hash bn) = HashSize ->
  indexKey HashSize bn =
    PutUint32 (uint32 (height bn)) ++ take (HashSize - 4) (hash bn)
      ++ replicate 4 0.
Proof.
  intros H4 Hlen. unfold indexKey, store, copied.
  rewrite Hlen, Nat.min_l by lia.
  remember (PutUint32 (uint32 (height bn))) as P eqn:HP.
  assert (HlenP : length P = 4%nat) by (subst P; reflexivity).
  rewrite HlenP, length_take, Hlen, Nat.min_l by lia.
  rewrite take_0, app_nil_l, drop_replicate.
  rewrite take_app_length' by (symmetry; exact HlenP).
  rewrite drop_app_add' by (symmetry; exact HlenP).
  rewrite drop_replicate.
  replace (HashSize + 4 - (0 + 4) - (HashSize - 4))%nat with 4%nat by lia.
  reflexivity.
Qed.

(** C7.  The key is [HashSize + 4] bytes wide; its first four bytes are the
    big-endian encoding of [uint32(height)] (they decode to it); the
    [HashSize - 4] bytes after them are the first [HashSize - 4] bytes of
    the block hash. *)
Theorem indexKey_format (HashSize : nat) (bn : blockNode) :
  (4 <= HashSize)%nat ->
  length (hash bn) = HashSize ->
  length (indexKey HashSize bn) = (HashSize + 4)%nat
  /\ take 4 (indexKey HashSize bn) = PutUint32 (uint32 (height bn))
  /\ Uint32 (take 4 (indexKey HashSize bn)) = uint32 (height bn)
  /\ take (HashSize - 4) (drop 4 (indexKey HashSize bn)) =
       take (HashSize - 4) (hash bn).
Proof.
  intros H4 Hlen. rewrite (indexKey_layout HashSize bn H4 Hlen).
  assert (HlenP : length (PutUint32 (uint32 (height bn))) = 4%nat) by reflexivity.
  assert (Htake : take 4 (PutUint32 (uint32 (height bn))
                          ++ take (HashSize - 4) (hash bn) ++ replicate 4 0)
                  = PutUint32 (uint32 (height bn))).
  { apply take_app_length'. symmetry. exact HlenP. }
  split; [|split; [|split]].
  - rewrite !length_app, length_take, length_replicate, HlenP, Hlen. lia.
  - exact Htake.
  - rewrite Htake. apply Uint32_PutUint32, uint32_range.
  - rewrite drop_app_length' by (symmetry; exact HlenP).
    apply take_app_length'. rewrite length_take, Hlen. lia.
Qed.

Lemma ancestor_height_witness :
  wellFormed block2
  /\ ancestor block2 (-1) = None
  /\ ancestor block2 3 = None
  /\ exists a, ancestor block2 1 = Some a /\ height a = 1.
Proof.
  assert (Hwf : wellFormed block2) by (simpl; repeat split; reflexivity).
  assert (Hh : height block2 = 2) by (vm_compute; reflexivity).
  refine (conj Hwf (conj _ (conj _ _))).
  - apply (proj1 (ancestor_height block2 (-1) Hwf)). left. lia.
  - apply (proj1 (ancestor_height block2 3 Hwf)). right. rewrite Hh. lia.
  - apply (proj2 (ancestor_height block2 1 Hwf)). rewrite Hh. lia.
Defined.

Lemma indexKey_format_witness :
  length (indexKey 32 block2) = 36%nat
  /\ take 4 (indexKey 32 block2) = [0; 0; 0; 2]
  /\ Uint32 (take 4 (indexKey 32 block2)) = 2
  /\ take 28 (drop 4 (indexKey 32 block2)) = take 28 (hashOf 81).
Proof.
  exact (indexKey_format 32 block2 ltac:(lia) eq_refl).
Defined.

End BlockIndexFacts.

(* ===================================================================== *)
(** * Properties of the mock transport's receive loop *)
(* ===================================================================== *)

Module TransportFacts.

Import Transport.

Section WithPayload.

Context {Payload : Type}.

Implicit Types (r : MockRequest Payload) (m : MockTransport Payload)
  (res : MockResponse Payload).

(** A turn of the loop never puts a response on the wait queue that was
    not there before. *)
Lemma loopBody_queue_incl r c m m' (o : Outcome Payload) :
  loopBody r c m = Some (m', o) ->
  forall x, In x (waitQueue m') -> In x (waitQueue m).
Proof.
  unfold loopBody. destruct c as [err|].
  - intros [= <- _] x Hx. exact Hx.
  - destruct (waitQueue m) as [|res rest]; [discriminate|].
    destruct (negb (ResponseID res =? RequestID r)%N).
    + destruct (negb (gaveUp m (ResponseID res))); intros [= <- _] x Hx; simpl in *.
      * apply in_app_or in Hx as [Hx|[<-|[]]]; [right; exact Hx|left; reflexivity].
      * right. exact Hx.
    + intros [= <- _] x Hx. right. exact Hx.
Qed.

(** What a turn hands back to the caller as a payload is a response of
    the wait queue that carries the caller's request id. *)
Lemma loopBody_returns_own r c m m' (v : Payload) (err : option error) :
  loopBody r c m = Some (m', Return (Some v) err) ->
  exists res, In res (waitQueue m) /\ ResponseID res = RequestID r
              /\ Payload_ res = v /\ Error res = err.
Proof.
  unfold loopBody. destruct c as [e|]; [discriminate|].
  destruct (waitQueue m) as [|res rest]; [discriminate|].
  destruct (N.eqb_spec (ResponseID res) (RequestID r)) as [Heq|Hne]; simpl.
  - intros [= _ <- <-]. exists res. repeat split; [left; reflexivity|exact Heq].
  - destruct (negb (gaveUp m (ResponseID res))); discriminate.
Qed.

(** The same for the whole loop, whatever cases the select takes. *)
Lemma receiveLoop_returns_own r (cs : list Selected) m m' (v : Payload)
  (err : option error) :
  receiveLoop r cs m = Some (m', Some v, err) ->
  exists res, In res (waitQueue m) /\ ResponseID res = RequestID r
              /\ Payload_ res = v /\ Error res = err.
Proof.
  revert m. induction cs as [|c cs IH]; intros m; simpl; [discriminate|].
  destruct (loopBody r c m) as [[m1 [v1 e1|]]|] eqn:Hbody; [| |discriminate].
  - intros [= -> -> ->]. eapply loopBody_returns_own, Hbody.
  - intros Hloop. destruct (IH _ Hloop) as (res & Hin & Hrest).
    exists res. split; [|exact Hrest].
    eapply loopBody_queue_incl; eassumption.
Qed.

(** What a step of another goroutine leaves on the wait queue was there
    before, or is the response that step has just sent. *)
Lemma otherStep_queue (a : Action Payload) m m' :
  otherStep a m = Some m' ->
  forall x, In x (waitQueue m') ->
    In x (waitQueue m)
    \/ exists r' v err, a = Respond r' v err
                        /\ x = mkMockResponse (RequestID r') v err.
Proof.
  destruct a as [c| |r' v err|r'|r' c]; simpl.
  - discriminate.
  - unfold recvRequest. destruct (queue m); [discriminate|].
    intros [= <-] x Hx. left. exact Hx.
  - intros [= <-] x Hx. simpl in Hx.
    apply in_app_or in Hx as [Hx|[<-|[]]]; [left; exact Hx|].
    right. exists r', v, err. auto.
  - intros [= <-] x Hx. left. exact Hx.
  - destruct (loopBody r' c m) as [[m1 o]|] eqn:Hbody; [|discriminate].
    intros [= <-] x Hx. left. eapply loopBody_queue_incl; eassumption.
Qed.

(** A payload that [sendRequest]'s loop returns is that of a response
    carrying the caller's request id, which was on the wait queue at the
    start or has been sent by [SendResponse] since. *)
Lemma sendLoop_payload_source r (sched : list (Action Payload)) m m'
  (v : Payload) (err : option error) :
  sendLoop r sched m = Some (m', Some v, err) ->
  (exists res, In res (waitQueue m) /\ ResponseID res = RequestID r
               /\ Payload_ res = v /\ Error res = err)
  \/ (exists r', In (Respond r' v err) sched /\ RequestID r' = RequestID r).
Proof.
  revert m. induction sched as [|a sched IH]; intros m; [discriminate|].
  assert (Hother : forall m1,
            otherStep a m = Some m1 -> sendLoop r sched m1 = Some (m', Some v, err) ->
            (exists res, In res (waitQueue m) /\ ResponseID res = RequestID r
                         /\ Payload_ res = v /\ Error res = err)
            \/ (exists r', In (Respond r' v err) (a :: sched)
                           /\ RequestID r' = RequestID r)).
  { intros m1 Hstep Hloop.
    destruct (IH _ Hloop) as [(res & Hin & Hid & Hv & He)|(r' & Hin & Hid)].
    - destruct (otherStep_queue a m m1 Hstep res Hin) as [Hold|(r' & v' & e' & -> & ->)].
      + left. exists res. auto.
      + right. exists r'. simpl in *. subst. split; [left; reflexivity|exact Hid].
    - right. exists r'. split; [right; exact Hin|exact Hid]. }
  destruct a as [c| |r0 v0 e0|r0|r0 c]; simpl;
    try (destruct (otherStep _ m) as [m1|] eqn:Hstep; [|discriminate];
         intros Hloop; exact (Hother m1 Hstep Hloop)).
  - destruct (loopBody r c m) as [[m1 [v1 e1|]]|] eqn:Hbody; [| |discriminate].
    + intros [= -> -> ->]. left. eapply loopBody_returns_own, Hbody.
    + intros Hloop.
      destruct (IH _ Hloop) as [(res & Hin & Hrest)|(r' & Hin & Hid)].
      * left. exists res. split; [|exact Hrest].
        eapply loopBody_queue_incl; eassumption.
      * right. exists r'. split; [right; exact Hin|exact Hid].
  - unfold otherStep in Hother. destruct (recvRequest m) as [[r1 m1]|]; [|discriminate].
    intros Hloop. exact (Hother m1 eq_refl Hloop).
  - intros Hloop. exact (Hother _ eq_refl Hloop).
  - intros Hloop. exact (Hother _ eq_refl Hloop).
  - unfold otherStep in Hother.
    destruct (loopBody r0 c m) as [[m1 o]|]; [|discriminate].
    intros Hloop. exact (Hother m1 eq_refl Hloop).
Qed.

(** C8.  A turn of the receive loop that takes a response [res] whose id
    is not the caller's: if that id is not marked in the gave-up set,
    [res] goes back onto the shared wait queue (at its end) and
    [sendRequest] goes on waiting in that state; if it is marked, [res]
    is dropped (the wait queue is what was behind it, and the mark is
    removed), [sendRequest] goes on waiting, and from then on no caller
    waiting for that id is ever handed a payload, whatever the other
    goroutines do, as long as no second response with that id is on the
    queue or is sent.  A turn in which the caller's context is done, in
    any state of the transport (an empty wait queue included): the caller
    marks its own request id in the gave-up set and [sendRequest] returns
    no payload and the context's error; so does a [sendRequest] whose
    context is done at its first turn, leaving the request enqueued. *)
Theorem receive_turn r m :
  (forall res (rest : list (MockResponse Payload)),
     waitQueue m = res :: rest ->
     ResponseID res <> RequestID r ->
     (gaveUp m (ResponseID res) = false ->
        loopBody r Received m =
          Some (mkMockTransport (nodeID m) (queue m) (rest ++ [res]) (giveUp m),
                Continue)
        /\ forall sched,
             sendLoop r (Own Received :: sched) m =
             sendLoop r sched
               (mkMockTransport (nodeID m) (queue m) (rest ++ [res]) (giveUp m)))
     /\ (gaveUp m (ResponseID res) = true ->
          exists m',
            loopBody r Received m = Some (m', Continue)
            /\ waitQueue m' = rest
            /\ giveUp m' = delete (ResponseID res) (giveUp m)
            /\ (forall sched,
                  sendLoop r (Own Received :: sched) m = sendLoop r sched m')
            /\ (Forall (fun x => ResponseID x <> ResponseID res) rest ->
                (forall r' cs m'' v err,
                   RequestID r' = ResponseID res ->
                   receiveLoop r' cs m' <> Some (m'', Some v, err))
                /\ (forall r' sched m'' v err,
                      RequestID r' = ResponseID res ->
                      Forall (fun a => answersTo (ResponseID res) a = false) sched ->
                      sendLoop r' sched m' <> Some (m'', Some v, err)))))
  /\ (forall err,
        loopBody r (CtxDone err) m =
          Some (mkMockTransport (nodeID m) (queue m) (waitQueue m)
                  (<[RequestID r := true]> (giveUp m)),
                Return None (Some err))
        /\ gaveUp (mkMockTransport (nodeID m) (queue m) (waitQueue m)
                     (<[RequestID r := true]> (giveUp m))) (RequestID r) = true
        /\ forall sched,
             sendLoop r (Own (CtxDone err) :: sched) m =
               Some (mkMockTransport (nodeID m) (queue m) (waitQueue m)
                       (<[RequestID r := true]> (giveUp m)),
                     None, Some err))
  /\ (forall err sched,
        sendRequest r (Own (CtxDone err) :: sched) m =
          Some (mkMockTransport (nodeID m) (queue m ++ [r]) (waitQueue m)
                  (<[RequestID r := true]> (giveUp m)),
                None, Some err)).
Proof.
  split; [|split].
  - intros res rest Hq Hne.
    assert (Hneb : negb (ResponseID res =? RequestID r)%N = true).
    { apply negb_true_iff, N.eqb_neq, Hne. }
    split.
    + intros Hg.
      assert (Hbody : loopBody r Received m =
                Some (mkMockTransport (nodeID m) (queue m) (rest ++ [res]) (giveUp m),
                      Continue)).
      { unfold loopBody. rewrite Hq, Hneb, Hg. reflexivity. }
      split; [exact Hbody|]. intros sched. cbn [sendLoop]. rewrite Hbody. reflexivity.
    + intros Hg.
      assert (Hbody : loopBody r Received m =
                Some (mkMockTransport (nodeID m) (queue m) rest
                        (delete (ResponseID res) (giveUp m)), Continue)).
      { unfold loopBody. rewrite Hq, Hneb, Hg. reflexivity. }
      eexists. split; [exact Hbody|]. split; [reflexivity|]. split; [reflexivity|].
      split; [intros sched; cbn [sendLoop]; rewrite Hbody; reflexivity|].
      intros Hfresh. split.
      * intros r' cs m'' v err Hid Hloop.
        apply receiveLoop_returns_own in Hloop as (x & Hin & Hx & _).
        simpl in Hin. apply list_elem_of_In in Hin.
        rewrite Forall_forall in Hfresh.
        apply (Hfresh x Hin). congruence.
      * intros r' sched m'' v err Hid Hsched Hloop.
        apply sendLoop_payload_source in Hloop
          as [(x & Hin & Hx & _)|(r0 & Hin & Hr0)].
        -- simpl in Hin. apply list_elem_of_In in Hin.
           rewrite Forall_forall in Hfresh.
           apply (Hfresh x Hin). congruence.
        -- rewrite Forall_forall in Hsched.
           apply list_elem_of_In in Hin. specialize (Hsched _ Hin).
           simpl in Hsched. apply N.eqb_neq in Hsched. congruence.
  - intros err. split; [reflexivity|]. split; [|reflexivity].
    unfold gaveUp. simpl. rewrite lookup_insert_eq. reflexivity.
  - intros err sched. reflexivity.
Qed.

End WithPayload.

(** Node "a" waits for request 7 while the queue holds the answers to
    requests 5 and 6; in the second run request 5 has been given up; in
    the last run the request goes to a transport nobody answers on and
    the deadline passes. *)
Lemma receive_turn_witness :
  loopBody req7 Received waiting =
    Some (mkMockTransport "b" [req7] [res6; res5] ∅, Continue)
  /\ (exists m1, loopBody req7 Received waitingGaveUp5 = Some (m1, Continue)
                 /\ waitQueue m1 = [res6]
                 /\ giveUp m1 = delete 5%N {[ 5%N := true ]})
  /\ loopBody req7 (CtxDone (ErrOther "context deadline exceeded")) waiting =
       Some (mkMockTransport "b" [req7] [res5; res6] (<[7%N := true]> ∅),
             Return None (Some (ErrOther "context deadline exceeded")))
  /\ sendRequest req7 [Own (CtxDone (ErrOther "context deadline exceeded"))]
       (newTransport "b") =
       Some (mkMockTransport "b" [req7] [] (<[7%N := true]> ∅),
             None, Some (ErrOther "context deadline exceeded")).
Proof.
  assert (Hne : ResponseID res5 <> RequestID req7) by (simpl; lia).
  refine (conj _ (conj _ (conj _ _))).
  - exact (proj1 (proj1 (proj1 (receive_turn req7 waiting) res5 [res6] eq_refl Hne)
                    eq_refl)).
  - destruct (proj2 (proj1 (receive_turn req7 waitingGaveUp5) res5 [res6] eq_refl Hne)
                eq_refl) as (m1 & H1 & H2 & H3 & _).
    exists m1. auto.
  - exact (proj1 (proj1 (proj2 (receive_turn req7 waiting))
                    (ErrOther "context deadline exceeded"))).
  - exact (proj2 (proj2 (receive_turn req7 (newTransport "b")))
             (ErrOther "context deadline exceeded") []).
Defined.

End TransportFacts.

(* ===================================================================== *)
(** * Properties of the coordinator *)
(* ===================================================================== *)

Module TwoPCFacts.

Import TwoPC.

Section Coordinator.

Context {W B : Type} {WK : Worker W B}.

(** A phase in which no worker fails has no first error. *)
Lemma firstError_all_ok (f : W -> W * option error) (ws : list W) :
  Forall (fun w => snd (f w) = None) ws ->
  firstError (snd (dispatch f ws)) = None.
Proof.
  unfold dispatch. simpl.
  induction 1 as [|w ws Hw _ IH]; simpl; [reflexivity|].
  rewrite Hw. exact IH.
Qed.

(** C5.  When the prepare phase is entered and every worker's Prepare
    succeeds, and the [beforeCommit] hook then answers the error [e], Put
    returns exactly [e], whatever the [beforeRollback] hook and the
    workers' Rollback calls answer; no Commit is dispatched, and every
    worker is left in the state its Rollback call produces from the state
    its Prepare call left. *)
Theorem Put_beforeCommit_error (o : Options) (ws : list W) (wb : B) (e : error) :
  runHook (beforePrepare o) (timeout o) = None ->
  Forall (fun w => snd (Prepare (timeout o) wb w) = None) ws ->
  runHook (beforeCommit o) (timeout o) = Some e ->
  Put o ws wb =
    (map (fun w => fst (Rollback (timeout o) wb (fst (Prepare (timeout o) wb w)))) ws,
     Some e).
Proof.
  intros Hbp Hprep Hbc. unfold Put. rewrite Hbp.
  pose proof (firstError_all_ok (Prepare (timeout o) wb) ws Hprep) as Hfirst.
  unfold dispatch in *. simpl in Hfirst. rewrite Hfirst, Hbc.
  unfold rollback, dispatch. simpl. rewrite map_map. reflexivity.
Qed.

End Coordinator.

(** The third run of [TestTwoPhaseCommit_WithHooks]: policy [AllGood],
    ten nodes, [beforeCommit] and [beforeRollback] both failing, batch 3.
    Put answers the [beforeCommit] error and every node is rolled back. *)
Lemma Put_beforeCommit_error_witness :
  Put (WK := raftWorker AllGood) (hookOptions false true true) nodes
    (RaftReq (mkRaftWriteBatchReq 3 ["+1"; "-3"; "+10"]%string)) =
  (replicate 10 (mkRaftNode 3 RolledBack), Some beforeCommitError).
Proof.
  refine (Put_beforeCommit_error (WK := raftWorker AllGood)
            (hookOptions false true true) nodes
            (RaftReq (mkRaftWriteBatchReq 3 ["+1"; "-3"; "+10"]%string))
            beforeCommitError eq_refl _ eq_refl).
  repeat constructor.
Defined.

End TwoPCFacts.

(* ===================================================================== *)
(** * More on the storage worker: how the phases compose *)
(* ===================================================================== *)

Module StorageMore.

Import Storage StorageCalls.

Section WithEngine.

Context {E : SqlEngine}.

Lemma equalTxID_true_iff (x y : TxID) : equalTxID x y = true <-> x = y.
Proof.
  unfold equalTxID. rewrite !andb_true_iff, !N.eqb_eq. split.
  - intros [[Hc Hs] Ht]. destruct x, y; simpl in *; congruence.
  - intros ->. auto.
Qed.

Lemma equalTxID_false_iff (x y : TxID) : equalTxID x y = false <-> x <> y.
Proof.
  rewrite <- equalTxID_true_iff. destruct (equalTxID x y); split; congruence.
Qed.

(** X1.  A storage that holds buffered statements only while a transaction
    is open keeps that property through every phase call, whatever the
    batch and whatever the database answers. *)
Theorem buffer_only_in_transaction (ctx : Ctx) (wb : WriteBatch) (s : Storage)
  (w : World) :
  (tx s = None -> queries s = []) ->
  (tx (Prepare ctx wb s w).1.1 = None -> queries (Prepare ctx wb s w).1.1 = [])
  /\ (tx (Commit ctx wb s w).1.1 = None -> queries (Commit ctx wb s w).1.1 = [])
  /\ (tx (Rollback ctx wb s w).1.1 = None -> queries (Rollback ctx wb s w).1.1 = []).
Proof.
  intros Hinv. destruct wb as [el|]; [|simpl; auto].
  split; [|split].
  - unfold Prepare. destruct (tx s) as [t|] eqn:Ht.
    + destruct (equalTxID (id s) (txidOf el)); simpl; rewrite ?Ht; discriminate.
    + destruct (BeginTx ctx w) as [w' [t|err]]; simpl; [discriminate|]. auto.
  - unfold Commit. destruct (tx s) as [t|] eqn:Ht; [|simpl; auto].
    destruct (equalTxID (id s) (txidOf el)); simpl.
    + destruct (execAll t ctx (queries s) w) as [w' [err|]]; simpl.
      * destruct (TxRollback t w'). reflexivity.
      * rewrite Ht. discriminate.
    + rewrite Ht. discriminate.
  - unfold Rollback. destruct (negb (equalTxID (id s) (txidOf el))); simpl; [auto|].
    destruct (tx s) as [t|] eqn:Ht; simpl; [|auto].
    destruct (TxRollback t w). reflexivity.
Qed.

(** X2.  From a storage without a transaction, a Prepare whose BeginTx
    succeeds followed by a Commit under the same TxID runs exactly the
    statements handed to Prepare, in order, inside the transaction that
    Prepare began; the statement list of the batch handed to Commit is
    not looked at. *)
Theorem Prepare_then_Commit (ctx : Ctx) (el el' : ExecLog) (s : Storage)
  (t : Tx) (w w1 w2 : World) :
  tx s = None ->
  BeginTx ctx w = (w1, inl t) ->
  txidOf el' = txidOf el ->
  execAll t ctx (el_Queries el) w1 = (w2, None) ->
  exists s1,
    Prepare ctx (WBExecLog el) s w = (s1, w1, None)
    /\ Commit ctx (WBExecLog el') s1 w1 = (s1, w2, None).
Proof.
  intros Ht Hb Hid Hexec. eexists. split.
  - unfold Prepare. rewrite Ht, Hb. reflexivity.
  - unfold Commit. simpl. rewrite Hid, (proj2 (equalTxID_true_iff _ _) eq_refl).
    rewrite Hexec. reflexivity.
Qed.

(** X3.  From a storage without a transaction, a Prepare whose BeginTx
    succeeds followed by a Rollback of the same batch rolls the new
    transaction back without having run any statement, and leaves the
    storage with no transaction and no buffered statements. *)
Theorem Prepare_then_Rollback (ctx : Ctx) (el : ExecLog) (s : Storage)
  (t : Tx) (w w1 : World) :
  tx s = None ->
  BeginTx ctx w = (w1, inl t) ->
  exists s1,
    Prepare ctx (WBExecLog el) s w = (s1, w1, None)
    /\ Rollback ctx (WBExecLog el) s1 w1 =
         (mkStorage (dsn s) None (txidOf el) [], (TxRollback t w1).1, None).
Proof.
  intros Ht Hb. eexists. split.
  - unfold Prepare. rewrite Ht, Hb. reflexivity.
  - unfold Rollback. simpl. rewrite (proj2 (equalTxID_true_iff _ _) eq_refl). simpl.
    destruct (TxRollback t w1). reflexivity.
Qed.

(** X4.  While a transaction is open, a second Prepare under the same TxID
    does not touch the database and replaces the buffer: the Commit that
    follows runs the statements of the second Prepare and none of the
    first. *)
Theorem re_Prepare_replaces (ctx : Ctx) (el el2 : ExecLog) (s : Storage)
  (t : Tx) (w : World) :
  tx s = Some t ->
  id s = txidOf el ->
  txidOf el2 = txidOf el ->
  exists s2,
    Prepare ctx (WBExecLog el2) (Prepare ctx (WBExecLog el) s w).1.1 w = (s2, w, None)
    /\ (Prepare ctx (WBExecLog el) s w).1.2 = w
    /\ queries s2 = el_Queries el2
    /\ forall w',
         execAll t ctx (el_Queries el2) w = (w', None) ->
         Commit ctx (WBExecLog el) s2 w = (s2, w', None).
Proof.
  intros Ht Hid Hid2.
  assert (Heq : equalTxID (id s) (txidOf el) = true) by (apply equalTxID_true_iff, Hid).
  assert (Heq2 : equalTxID (id s) (txidOf el2) = true).
  { apply equalTxID_true_iff. congruence. }
  unfold Prepare at 2 3. rewrite Ht, Heq. simpl.
  eexists. split; [|split; [|split]].
  - unfold Prepare. simpl. rewrite Heq2. reflexivity.
  - reflexivity.
  - reflexivity.
  - intros w' Hexec. unfold Commit. simpl. rewrite Heq, Hexec. reflexivity.
Qed.

(** X5.  After a Commit that failed on a statement, the transaction is
    gone: committing the same batch again is refused with the
    not-prepared error, and rolling the same batch back is a successful
    no-op; neither touches the database. *)
Theorem after_failed_Commit (ctx : Ctx) (el : ExecLog) (s s' : Storage)
  (t : Tx) (w w' : World) (err : error) :
  tx s = Some t ->
  id s = txidOf el ->
  Commit ctx (WBExecLog el) s w = (s', w', Some err) ->
  Commit ctx (WBExecLog el) s' w' = (s', w', Some ErrTxNotPrepared)
  /\ Rollback ctx (WBExecLog el) s' w' = (s', w', None).
Proof.
  intros Ht Hid Hc.
  assert (Heq : equalTxID (id s) (txidOf el) = true) by (apply equalTxID_true_iff, Hid).
  unfold Commit in Hc. rewrite Ht, Heq in Hc.
  destruct (execAll t ctx (queries s) w) as [w1 [e|]]; [|discriminate].
  destruct (TxRollback t w1) as [w2 r]. injection Hc as <- <- <-.
  unfold Commit, Rollback. simpl. rewrite Heq. split; reflexivity.
Qed.

(** X6.  An open transaction cannot be disturbed under another TxID: any
    sequence of Prepare, Commit and Rollback calls whose batches all carry
    a TxID other than the stored one leaves the storage and the database
    exactly as they were, and every one of the calls returns the
    inconsistent-state error. *)
Theorem foreign_calls_frame (ctx : Ctx) (cs : list (Phase * WriteBatch))
  (s : Storage) (t : Tx) (w : World) :
  tx s = Some t ->
  Forall (fun c => exists el, c.2 = WBExecLog el /\ txidOf el <> id s) cs ->
  calls cs ctx s w = (s, w, map (fun _ => Some (inconsistent s)) cs).
Proof.
  intros Ht Hall. induction Hall as [|[ph wb] cs (el & Hwb & Hid) _ IH]; simpl.
  - reflexivity.
  - simpl in Hwb. subst wb.
    assert (Hne : equalTxID (id s) (txidOf el) = false).
    { apply equalTxID_false_iff. congruence. }
    assert (Hcall : call ph ctx (WBExecLog el) s w = (s, w, Some (inconsistent s))).
    { destruct ph; simpl; unfold Prepare, Commit, Rollback;
        rewrite ?Ht, Hne; reflexivity. }
    rewrite Hcall, IH. reflexivity.
Qed.

End WithEngine.

End StorageMore.

Module StorageMoreRuns.

Import Storage StorageCalls SqlLog.

Local Open Scope string_scope.

Lemma buffer_only_in_transaction_witness :
  (tx (Prepare false (batch 1 1 1 []) (prepared ["FAIL"]) [EvBegin]).1.1 = None ->
   queries (Prepare false (batch 1 1 1 []) (prepared ["FAIL"]) [EvBegin]).1.1 = [])
  /\ (tx (Commit false (batch 1 1 1 []) (prepared ["FAIL"]) [EvBegin]).1.1 = None ->
      queries (Commit false (batch 1 1 1 []) (prepared ["FAIL"]) [EvBegin]).1.1 = [])
  /\ (tx (Rollback false (batch 1 1 1 []) (prepared ["FAIL"]) [EvBegin]).1.1 = None ->
      queries (Rollback false (batch 1 1 1 []) (prepared ["FAIL"]) [EvBegin]).1.1 = []).
Proof.
  apply (StorageMore.buffer_only_in_transaction (E := logEngine) false
           (batch 1 1 1 []) (prepared ["FAIL"]) [EvBegin]).
  simpl. discriminate.
Defined.

Lemma Prepare_then_Commit_witness :
  exists s1,
    Prepare false (batch 1 1 1 twoInserts) fresh [] = (s1, [EvBegin], None)
    /\ Commit false (batch 1 1 1 []) s1 [EvBegin] =
         (s1, [EvBegin; EvExec "INSERT INTO t VALUES (1)";
               EvExec "INSERT INTO t VALUES (2)"], None).
Proof.
  exact (StorageMore.Prepare_then_Commit (E := logEngine) false
           (mkExecLog 1 1 1 twoInserts) (mkExecLog 1 1 1 []) fresh tt
           [] [EvBegin]
           [EvBegin; EvExec "INSERT INTO t VALUES (1)"; EvExec "INSERT INTO t VALUES (2)"]
           eq_refl eq_refl eq_refl eq_refl).
Defined.

Lemma Prepare_then_Rollback_witness :
  exists s1,
    Prepare false (batch 1 1 1 twoInserts) fresh [] = (s1, [EvBegin], None)
    /\ Rollback false (batch 1 1 1 twoInserts) s1 [EvBegin] =
         (mkStorage "file::memory:" None (mkTxID 1 1 1) [], [EvBegin; EvRollback], None).
Proof.
  exact (StorageMore.Prepare_then_Rollback (E := logEngine) false
           (mkExecLog 1 1 1 twoInserts) fresh tt [] [EvBegin] eq_refl eq_refl).
Defined.

Lemma re_Prepare_replaces_witness :
  exists s2,
    Prepare false (batch 1 1 1 twoInserts)
      (Prepare false (batch 1 1 1 ["DELETE FROM t"]) (prepared ["DELETE FROM t"]) [EvBegin]).1.1
      [EvBegin] = (s2, [EvBegin], None)
    /\ (Prepare false (batch 1 1 1 ["DELETE FROM t"]) (prepared ["DELETE FROM t"]) [EvBegin]).1.2
       = [EvBegin]
    /\ queries s2 = twoInserts
    /\ forall w',
         execAll tt false twoInserts [EvBegin] = (w', None) ->
         Commit false (batch 1 1 1 ["DELETE FROM t"]) s2 [EvBegin] = (s2, w', None).
Proof.
  exact (StorageMore.re_Prepare_replaces (E := logEngine) false
           (mkExecLog 1 1 1 ["DELETE FROM t"]) (mkExecLog 1 1 1 twoInserts)
           (prepared ["DELETE FROM t"]) tt [EvBegin] eq_refl eq_refl eq_refl).
Defined.

Lemma after_failed_Commit_witness :
  Commit false (batch 1 1 1 [])
    (mkStorage "file::memory:" None (mkTxID 1 1 1) [])
    [EvBegin; EvExec "FAIL"; EvRollback] =
    (mkStorage "file::memory:" None (mkTxID 1 1 1) [],
     [EvBegin; EvExec "FAIL"; EvRollback], Some ErrTxNotPrepared)
  /\ Rollback false (batch 1 1 1 [])
       (mkStorage "file::memory:" None (mkTxID 1 1 1) [])
       [EvBegin; EvExec "FAIL"; EvRollback] =
       (mkStorage "file::memory:" None (mkTxID 1 1 1) [],
        [EvBegin; EvExec "FAIL"; EvRollback], None).
Proof.
  exact (StorageMore.after_failed_Commit (E := logEngine) false
           (mkExecLog 1 1 1 []) (prepared ["FAIL"])
           (mkStorage "file::memory:" None (mkTxID 1 1 1) []) tt
           [EvBegin] [EvBegin; EvExec "FAIL"; EvRollback]
           (ErrOther "syntax error") eq_refl eq_refl eq_refl).
Defined.

Lemma foreign_calls_frame_witness :
  calls [(PhPrepare, batch 2 1 1 ["DELETE FROM t"]);
         (PhCommit, batch 2 1 1 []);
         (PhRollback, batch 0 0 0 [])]
        false (prepared twoInserts) [EvBegin] =
  (prepared twoInserts, [EvBegin],
   [Some (ErrInconsistentState 1 1 1); Some (ErrInconsistentState 1 1 1);
    Some (ErrInconsistentState 1 1 1)]).
Proof.
  refine (StorageMore.foreign_calls_frame (E := logEngine) false
            [(PhPrepare, batch 2 1 1 ["DELETE FROM t"]);
             (PhCommit, batch 2 1 1 []);
             (PhRollback, batch 0 0 0 [])]
            (prepared twoInserts) tt [EvBegin] eq_refl _).
  repeat constructor; eexists; (split; [reflexivity|simpl; discriminate]).
Defined.

End StorageMoreRuns.

(* ===================================================================== *)
(** * Opening databases: the handle index *)
(* ===================================================================== *)

Module StorageOpenFacts.

Import StorageOpen.

Section WithEnv.

Context {V : Env}.



End WithEnv.


End StorageOpenFacts.

(* ===================================================================== *)
(** * More on the block index *)
(* ===================================================================== *)

Module BlockIndexMore.

Import BlockIndex.

(** Induction along the parent links. *)
Lemma parent_ind (P : blockNode -> Prop)
  (Hgenesis : forall h ht, P (mkBlockNode None h ht))
  (Hchild : forall p h ht, P p -> P (mkBlockNode (Some p) h ht)) :
  forall n, P n.
Proof.
  fix IH 1. intros [[p|] h ht].
  - apply Hchild, IH.
  - apply Hgenesis.
Qed.

Lemma wellFormed_nonneg (n : blockNode) : wellFormed n -> 0 <= height n.
Proof.
  induction n as [h ht|p h ht IH] using parent_ind; simpl.
  - lia.
  - intros [-> Hp]. specialize (IH Hp). lia.
Qed.

Lemma walk_nthParent (n : blockNode) (h : Z) :
  wellFormed n -> 0 <= h <= height n ->
  walk n h = nthParent (Z.to_nat (height n - h)) n.
Proof.
  induction n as [hs ht|p hs ht IH] using parent_ind; simpl.
  - intros -> Hh. assert (h = 0) as -> by lia. reflexivity.
  - intros [-> Hp] Hh.
    destruct (Z.eqb_spec (height p + 1) h) as [Heq|Hne]; simpl.
    + replace (height p + 1 - h) with 0 by lia. reflexivity.
    + replace (Z.to_nat (height p + 1 - h)) with (S (Z.to_nat (height p - h))) by lia.
      simpl. apply IH; [exact Hp|lia].
Qed.

(** X9.  In a well-formed chain, the ancestor of a node at a height [h]
    between 0 and its own is the node reached by following the parent
    link exactly [height - h] times. *)
Theorem ancestor_nthParent (n : blockNode) (h : Z) :
  wellFormed n -> 0 <= h <= height n ->
  ancestor n h = nthParent (Z.to_nat (height n - h)) n.
Proof.
  intros Hwf Hh. unfold ancestor.
  destruct (Z.ltb_spec h 0); [lia|].
  destruct (Z.gtb_spec h (height n)); [lia|]. simpl.
  apply walk_nthParent; assumption.
Qed.

Lemma walk_through (n a : blockNode) (h h' : Z) :
  wellFormed n -> h' <= h ->
  walk n h = Some a ->
  wellFormed a /\ height a = h /\ walk n h' = walk a h'.
Proof.
  induction n as [hs ht|p hs ht IH] using parent_ind; simpl.
  - intros -> Hle. destruct (Z.eqb_spec 0 h) as [<-|Hne]; simpl; [|discriminate].
    intros [= <-]. simpl. auto.
  - intros [-> Hp] Hle.
    destruct (Z.eqb_spec (height p + 1) h) as [<-|Hne]; simpl.
    + intros [= <-]. simpl. auto.
    + intros Hw. destruct (IH Hp Hle Hw) as (Hwa & Hha & Hsame).
      split; [exact Hwa|]. split; [exact Hha|].
      assert (Hbelow : height a <= height p).
      { clear -Hp Hw. revert Hw. generalize h.
        induction p as [hs' ht'|q hs' ht' IHq] using parent_ind; simpl; intros h0.
        - destruct (ht' =? h0); simpl; [|discriminate]. intros [= <-]. simpl. lia.
        - destruct Hp as [-> Hq].
          destruct (height q + 1 =? h0); simpl.
          + intros [= <-]. simpl. lia.
          + intros Hw. specialize (IHq Hq _ Hw). lia. }
      destruct (Z.eqb_spec (height p + 1) h') as [Heq|_]; simpl; [lia|exact Hsame].
Qed.

(** X10.  Ancestor lookups compose: in a well-formed chain, if [a] is the
    ancestor of [n] at height [h], then for every height [h'] up to [h]
    the ancestor of [a] at [h'] is the ancestor of [n] at [h']. *)
Theorem ancestor_of_ancestor (n a : blockNode) (h h' : Z) :
  wellFormed n ->
  ancestor n h = Some a ->
  h' <= h ->
  ancestor a h' = ancestor n h'.
Proof.
  intros Hwf Ha Hle. unfold ancestor in *.
  destruct (Z.ltb_spec h 0); [discriminate|].
  destruct (Z.gtb_spec h (height n)); [discriminate|]. simpl in Ha.
  destruct (walk_through n a h h' Hwf Hle Ha) as (Hwa & Hha & Hsame).
  destruct (Z.ltb_spec h' 0); [reflexivity|].
  destruct (Z.gtb_spec h' (height a)); [lia|].
  destruct (Z.gtb_spec h' (height n)); [lia|]. simpl.
  symmetry. exact Hsame.
Qed.

(** X11.  [initBlockNode] rewrites every field of its receiver: whatever
    the node held before, it ends up equal to the node [newBlockNode]
    builds from the same header and parent. *)
Theorem initBlockNode_newBlockNode (bn : blockNode) (BlockHash : list Z)
  (parent : option blockNode) :
  initBlockNode bn BlockHash parent = newBlockNode BlockHash parent.
Proof.
  destruct bn as [p0 h0 ht0], parent as [p|]; reflexivity.
Qed.

(** X12.  A node built by [newBlockNode] on a well-formed parent whose
    height leaves room in the [int32] field is well formed, one above its
    parent, its own ancestor at its own height, has the parent as its
    ancestor at the parent's height, and at every height answers what the
    parent answers. *)
Theorem newBlockNode_ancestor (BlockHash : list Z) (p : blockNode) :
  wellFormed p ->
  height p + 1 < 2 ^ 31 ->
  wellFormed (newBlockNode BlockHash (Some p))
  /\ height (newBlockNode BlockHash (Some p)) = height p + 1
  /\ ancestor (newBlockNode BlockHash (Some p)) (height p + 1) =
       Some (newBlockNode BlockHash (Some p))
  /\ ancestor (newBlockNode BlockHash (Some p)) (height p) = Some p
  /\ forall k, k <= height p ->
       ancestor (newBlockNode BlockHash (Some p)) k = ancestor p k.
Proof.
  intros Hwf Hfit. pose proof (wellFormed_nonneg p Hwf) as Hnn.
  assert (Hh : wrap32 (height p + 1) = height p + 1).
  { unfold wrap32. rewrite Z.mod_small; lia. }
  unfold newBlockNode. rewrite Hh.
  assert (Hself : forall q, 0 <= height q -> ancestor q (height q) = Some q).
  { intros q Hq. unfold ancestor.
    destruct (Z.ltb_spec (height q) 0); [lia|].
    destruct (Z.gtb_spec (height q) (height q)); [lia|]. simpl.
    destruct q as [pq hq htq]. simpl. rewrite Z.eqb_refl. reflexivity. }
  assert (Hdown : forall k, k <= height p ->
            ancestor (mkBlockNode (Some p) BlockHash (height p + 1)) k = ancestor p k).
  { intros k Hk. unfold ancestor. simpl.
    destruct (Z.ltb_spec k 0); [reflexivity|].
    destruct (Z.gtb_spec k (height p + 1)); [lia|].
    destruct (Z.gtb_spec k (height p)); [lia|]. simpl.
    destruct (Z.eqb_spec (height p + 1) k); [lia|]. reflexivity. }
  split; [simpl; auto|]. split; [reflexivity|]. split; [|split].
  - apply (Hself (mkBlockNode (Some p) BlockHash (height p + 1))). simpl. lia.
  - rewrite Hdown by lia. apply Hself, Hnn.
  - exact Hdown.
Qed.

(** X13.  The height field is an [int32]: on a parent at height 2^31 - 1
    [newBlockNode] builds a node whose height has wrapped to -2^31, and
    [ancestor] on that node answers nil for every height, its own
    included. *)
Theorem newBlockNode_overflow (BlockHash : list Z) (p : blockNode) (k : Z) :
  height p = 2 ^ 31 - 1 ->
  height (newBlockNode BlockHash (Some p)) = - 2 ^ 31
  /\ ancestor (newBlockNode BlockHash (Some p)) k = None.
Proof.
  intros Hp.
  assert (Hh : height (newBlockNode BlockHash (Some p)) = - 2 ^ 31).
  { simpl. rewrite Hp. reflexivity. }
  split; [exact Hh|]. unfold ancestor. rewrite Hh.
  destruct (Z.ltb_spec k 0); [reflexivity|].
  destruct (Z.gtb_spec k (- 2 ^ 31)); [reflexivity|]. lia.
Qed.

(** Adding a list of blocks, first to last. *)
Lemma LookupNode_AddBlock (h : list Z) (n : blockNode) (bi : blockIndex) :
  LookupNode h (AddBlock n bi) =
    if decide (hash n = h) then Some n else LookupNode h bi.
Proof.
  unfold LookupNode, AddBlock. simpl. destruct (decide (hash n = h)) as [->|Hne].
  - apply lookup_insert_eq.
  - apply lookup_insert_ne, Hne.
Qed.

Lemma LookupNode_foldl (h : list Z) (ns : list blockNode) (bi : blockIndex) :
  LookupNode h (foldl (fun b n => AddBlock n b) bi ns) =
    match find (fun n => bool_decide (hash n = h)) (rev ns) with
    | Some n => Some n
    | None => LookupNode h bi
    end.
Proof.
  revert bi. induction ns as [|n ns IH] using rev_ind; intros bi.
  - reflexivity.
  - rewrite foldl_app, rev_unit. simpl. rewrite LookupNode_AddBlock.
    destruct (decide (hash n = h)) as [Heq|Hne].
    + rewrite bool_decide_eq_true_2 by exact Heq. reflexivity.
    + rewrite bool_decide_eq_false_2 by exact Hne. apply IH.
Qed.

(** X14.  After any sequence of [AddBlock] calls, [LookupNode] of a hash
    answers the block added last under that hash, and what the index
    answered before if none was; [HasBlock] answers true exactly when
    [LookupNode] answers a node. *)
Theorem LookupNode_after_adds (h : list Z) (ns : list blockNode) (bi : blockIndex) :
  LookupNode h (foldl (fun b n => AddBlock n b) bi ns) =
    match find (fun n => bool_decide (hash n = h)) (rev ns) with
    | Some n => Some n
    | None => LookupNode h bi
    end
  /\ HasBlock h (foldl (fun b n => AddBlock n b) bi ns) =
       match LookupNode h (foldl (fun b n => AddBlock n b) bi ns) with
       | Some _ => true
       | None => false
       end.
Proof.
  split; [apply LookupNode_foldl|reflexivity].
Qed.

(** X15.  In an index built from the empty one by [AddBlock] calls, every
    node that [LookupNode] answers is one of the added nodes and is filed
    under its own hash; the empty index has no block. *)
Theorem LookupNode_sound (h : list Z) (ns : list blockNode) (n : blockNode) :
  LookupNode h (foldl (fun b n => AddBlock n b) newBlockIndex ns) = Some n ->
  hash n = h /\ In n ns /\ HasBlock h newBlockIndex = false.
Proof.
  rewrite (LookupNode_foldl h ns newBlockIndex).
  destruct (find _ (rev ns)) as [m|] eqn:Hfind.
  - intros [= ->]. apply find_some in Hfind as [Hin Hdec].
    apply bool_decide_eq_true_1 in Hdec. apply in_rev in Hin. auto.
  - unfold LookupNode, newBlockIndex. simpl. rewrite lookup_empty. discriminate.
Qed.

(** The three parts of the key. *)
Lemma indexKey_parts (HashSize : nat) (bn : blockNode) :
  (4 <= HashSize)%nat ->
  length (hash bn) = HashSize ->
  indexKey HashSize bn =
    PutUint32 (uint32 (height bn)) ++ take (HashSize - 4) (hash bn) ++ [0; 0; 0; 0].
Proof.
  intros H4 Hlen. unfold indexKey, store, copied.
  assert (HlenP : length (PutUint32 (uint32 (height bn))) = 4%nat) by reflexivity.
  rewrite Hlen, Nat.min_l, HlenP by lia.
  generalize dependent (PutUint32 (uint32 (height bn))). intros P HlenP.
  rewrite length_take, Hlen, Nat.min_l by lia.
  rewrite take_0, app_nil_l, drop_replicate.
  rewrite take_app_length', drop_app_add' by (symmetry; exact HlenP).
  rewrite drop_replicate.
  replace (HashSize + 4 - (0 + 4) - (HashSize - 4))%nat with 4%nat by lia.
  reflexivity.
Qed.

(** The four bytes of [PutUint32] as base-256 digits. *)
Lemma PutUint32_digits (v : Z) :
  0 <= v < 2 ^ 32 ->
  exists b0 b1 b2 b3,
    PutUint32 v = [b0; b1; b2; b3]
    /\ 0 <= b0 < 256 /\ 0 <= b1 < 256 /\ 0 <= b2 < 256 /\ 0 <= b3 < 256
    /\ v = b0 * 16777216 + b1 * 65536 + b2 * 256 + b3.
Proof.
  intros Hv. unfold PutUint32, byte. change 255 with (Z.ones 8).
  rewrite !Z.land_ones, !Z.shiftr_div_pow2 by lia.
  change (2 ^ 8) with 256. change (2 ^ 16) with 65536. change (2 ^ 24) with 16777216.
  do 4 eexists. split; [reflexivity|].
  pose proof (Z.mod_pos_bound (v / 16777216) 256 ltac:(lia)).
  pose proof (Z.mod_pos_bound (v / 65536) 256 ltac:(lia)).
  pose proof (Z.mod_pos_bound (v / 256) 256 ltac:(lia)).
  pose proof (Z.mod_pos_bound v 256 ltac:(lia)).
  repeat (split; [assumption|]).
  pose proof (Z.div_mod v 256 ltac:(lia)) as Hd0.
  pose proof (Z.div_mod (v / 256) 256 ltac:(lia)) as Hd1.
  pose proof (Z.div_mod (v / 65536) 256 ltac:(lia)) as Hd2.
  replace (v / 256 / 256) with (v / 65536) in Hd1
    by (rewrite Z.div_div by lia; reflexivity).
  replace (v / 65536 / 256) with (v / 16777216) in Hd2
    by (rewrite Z.div_div by lia; reflexivity).
  assert (Htop : (v / 16777216) mod 256 = v / 16777216).
  { apply Z.mod_small. split; [apply Z.div_pos; lia|].
    apply Z.div_lt_upper_bound; lia. }
  lia.
Qed.

(** X16.  The key sorts by height: of two nodes with heights
    [0 <= height a < height b < 2^31], the key of [a] comes before the key
    of [b] in byte order, whatever their hashes. *)
Theorem indexKey_sorts_by_height (HashSize : nat) (a b : blockNode) :
  (4 <= HashSize)%nat ->
  length (hash a) = HashSize ->
  length (hash b) = HashSize ->
  0 <= height a < height b ->
  height b < 2 ^ 31 ->
  bytesLess (indexKey HashSize a) (indexKey HashSize b) = true.
Proof.
  intros H4 Ha Hb Hlt Hmax.
  rewrite (indexKey_parts HashSize a H4 Ha), (indexKey_parts HashSize b H4 Hb).
  unfold uint32. rewrite !Z.mod_small by lia.
  destruct (PutUint32_digits (height a) ltac:(lia))
    as (a0 & a1 & a2 & a3 & -> & Ha0 & Ha1 & Ha2 & Ha3 & Hva).
  destruct (PutUint32_digits (height b) ltac:(lia))
    as (b0 & b1 & b2 & b3 & -> & Hb0 & Hb1 & Hb2 & Hb3 & Hvb).
  simpl.
  destruct (Z.ltb_spec a0 b0); [reflexivity|].
  destruct (Z.eqb_spec a0 b0); [|lia]. simpl.
  destruct (Z.ltb_spec a1 b1); [reflexivity|].
  destruct (Z.eqb_spec a1 b1); [|lia]. simpl.
  destruct (Z.ltb_spec a2 b2); [reflexivity|].
  destruct (Z.eqb_spec a2 b2); [|lia]. simpl.
  destruct (Z.ltb_spec a3 b3); [reflexivity|]. lia.
Qed.

(** X17.  The last four bytes of the hash never reach the key, and the
    last four bytes of the key are always zero: two nodes of the same
    height whose hashes agree on their first [HashSize - 4] bytes have the
    same key. *)
Theorem indexKey_drops_hash_tail (HashSize : nat) (a b : blockNode) :
  (4 <= HashSize)%nat ->
  length (hash a) = HashSize ->
  length (hash b) = HashSize ->
  height a = height b ->
  take (HashSize - 4) (hash a) = take (HashSize - 4) (hash b) ->
  indexKey HashSize a = indexKey HashSize b
  /\ drop HashSize (indexKey HashSize a) = [0; 0; 0; 0].
Proof.
  intros H4 Ha Hb Hh Hpre.
  rewrite (indexKey_parts HashSize a H4 Ha), (indexKey_parts HashSize b H4 Hb),
    Hh, Hpre.
  split; [reflexivity|].
  rewrite app_assoc. apply drop_app_length'.
  rewrite length_app, length_take, Hb. simpl. lia.
Qed.

Lemma block2_wellFormed : wellFormed block2.
Proof. simpl. repeat split; reflexivity. Qed.

Lemma ancestor_nthParent_witness :
  ancestor block2 0 = nthParent 2 block2.
Proof.
  refine (ancestor_nthParent block2 0 block2_wellFormed _).
  vm_compute. split; discriminate.
Defined.

Lemma ancestor_of_ancestor_witness :
  ancestor block1 0 = ancestor block2 0.
Proof.
  refine (ancestor_of_ancestor block2 block1 1 0 block2_wellFormed eq_refl _). lia.
Defined.

Lemma newBlockNode_ancestor_witness :
  wellFormed (newBlockNode (hashOf 81) (Some block1))
  /\ height (newBlockNode (hashOf 81) (Some block1)) = height block1 + 1
  /\ ancestor (newBlockNode (hashOf 81) (Some block1)) (height block1 + 1) =
       Some (newBlockNode (hashOf 81) (Some block1))
  /\ ancestor (newBlockNode (hashOf 81) (Some block1)) (height block1) = Some block1
  /\ forall k, k <= height block1 ->
       ancestor (newBlockNode (hashOf 81) (Some block1)) k = ancestor block1 k.
Proof.
  refine (newBlockNode_ancestor (hashOf 81) block1 _ _).
  - simpl. repeat split; reflexivity.
  - vm_compute. reflexivity.
Defined.

Lemma newBlockNode_overflow_witness :
  height (newBlockNode (hashOf 41) (Some highest)) = - 2 ^ 31
  /\ ancestor (newBlockNode (hashOf 41) (Some highest)) 2147483647 = None.
Proof.
  exact (newBlockNode_overflow (hashOf 41) highest 2147483647 eq_refl).
Defined.

Lemma LookupNode_sound_witness :
  hash block1 = hashOf 41
  /\ In block1 [genesis; block1; block2]
  /\ HasBlock (hashOf 41) newBlockIndex = false.
Proof.
  refine (LookupNode_sound (hashOf 41) [genesis; block1; block2] block1 _).
  vm_compute. reflexivity.
Defined.

Lemma indexKey_sorts_by_height_witness :
  bytesLess (indexKey 32 block1) (indexKey 32 block2) = true.
Proof.
  refine (indexKey_sorts_by_height 32 block1 block2 _ eq_refl eq_refl _ _).
  - lia.
  - vm_compute. split; [discriminate|reflexivity].
  - vm_compute. reflexivity.
Defined.

Lemma indexKey_drops_hash_tail_witness :
  indexKey 32 genesisA = indexKey 32 genesisB
  /\ drop 32 (indexKey 32 genesisA) = [0; 0; 0; 0].
Proof.
  refine (indexKey_drops_hash_tail 32 genesisA genesisB _ eq_refl eq_refl eq_refl eq_refl).
  lia.
Defined.

End BlockIndexMore.

(* ===================================================================== *)
(** * More on the mock transport *)
(* ===================================================================== *)

Module TransportMore.

Import Transport.

Section WithPayload.

Context {Payload : Type}.

Implicit Types (r : MockRequest Payload) (m : MockTransport Payload)
  (res : MockResponse Payload) (rt : MockTransportRouter Payload).

(** Receiving past strangers turns the queue round: each goes to the
    back, in order. *)
Lemma receiveLoop_rotate r (node : string) (q : list (MockRequest Payload))
  (g : gmap N bool) (pre post : list (MockResponse Payload)) (cs : list Selected) :
  Forall (stranger r g) pre ->
  receiveLoop r (replicate (length pre) Received ++ cs)
    (mkMockTransport node q (pre ++ post) g) =
  receiveLoop r cs (mkMockTransport node q (post ++ pre) g).
Proof.
  intros Hpre. revert post.
  induction Hpre as [|x pre [Hid Hg] _ IH]; intros post.
  - simpl. rewrite app_nil_r. reflexivity.
  - simpl. unfold gaveUp. simpl.
    rewrite (proj2 (N.eqb_neq _ _) Hid), Hg. simpl.
    rewrite <- app_assoc. rewrite IH. rewrite <- app_assoc. reflexivity.
Qed.


(** When [sendRequest]'s loop returns no payload, the caller's context
    was done: the error is the context's and the caller's id is marked. *)
Lemma sendLoop_no_payload r (sched : list (Action Payload)) m m'
  (err : option error) :
  sendLoop r sched m = Some (m', None, err) ->
  exists e, err = Some e /\ In (Own (CtxDone e)) sched
            /\ gaveUp m' (RequestID r) = true.
Proof.
  revert m. induction sched as [|a sched IH]; intros m; [discriminate|].
  assert (Hrest : forall m1, sendLoop r sched m1 = Some (m', None, err) ->
            exists e, err = Some e /\ In (Own (CtxDone e)) (a :: sched)
                      /\ gaveUp m' (RequestID r) = true).
  { intros m1 Hloop. destruct (IH _ Hloop) as (e & He & Hin & Hg).
    exists e. split; [exact He|]. split; [right; exact Hin|exact Hg]. }
  destruct a as [c| |r0 v0 e0|r0|r0 c]; cbn [sendLoop otherStep].
  - destruct (loopBody r c m) as [[m1 [v1 e1|]]|] eqn:Hbody; [| |discriminate].
    + intros [= -> -> ->]. unfold loopBody in Hbody. destruct c as [e|].
      * injection Hbody as <- <-. exists e. split; [reflexivity|].
        split; [left; reflexivity|].
        unfold gaveUp. simpl. rewrite lookup_insert_eq. reflexivity.
      * destruct (waitQueue m) as [|res rest]; [discriminate|].
        destruct (negb (ResponseID res =? RequestID r)%N).
        -- destruct (negb (gaveUp m (ResponseID res))); discriminate.
        -- discriminate.
    + apply Hrest.
  - destruct (recvRequest m) as [[r1 m1]|]; [apply Hrest|discriminate].
  - apply Hrest.
  - apply Hrest.
  - destruct (loopBody r0 c m) as [[m1 o]|]; [apply Hrest|discriminate].
Qed.

(** X19.  [sendRequest] returns in one of two ways only, whatever the
    other goroutines do in the meantime.  Either it hands back the payload
    and error of a response carrying the caller's own request id, one
    that was on the wait queue already or one sent by [SendResponse]
    during the wait; or it hands back no payload and the error of the
    caller's context, and then the caller's id is marked in the gave-up
    set.  It never returns the response of another request. *)
Theorem sendRequest_result r (sched : list (Action Payload)) m m'
  (v : option Payload) (err : option error) :
  sendRequest r sched m = Some (m', v, err) ->
  (exists p, v = Some p
     /\ ((exists res, In res (waitQueue m) /\ ResponseID res = RequestID r
                      /\ Payload_ res = p /\ Error res = err)
         \/ (exists r', In (Respond r' p err) sched
                        /\ RequestID r' = RequestID r)))
  \/ (v = None /\ exists e, err = Some e /\ In (Own (CtxDone e)) sched
                            /\ gaveUp m' (RequestID r) = true).
Proof.
  unfold sendRequest. intros H. destruct v as [p|].
  - left. exists p. split; [reflexivity|].
    apply TransportFacts.sendLoop_payload_source in H. exact H.
  - right. split; [reflexivity|]. eapply sendLoop_no_payload, H.
Qed.

(** Turns of the caller's loop with nothing happening in between are the
    loop on its own. *)
Lemma sendLoop_own_turns r (c : Selected) (n : nat) m :
  sendLoop r (replicate n (Own c)) m = receiveLoop r (replicate n c) m.
Proof.
  revert m. induction n as [|n IH]; intros m; [reflexivity|].
  cbn [replicate sendLoop receiveLoop].
  destruct (loopBody r c m) as [[m1 [v1 e1|]]|]; [reflexivity|apply IH|reflexivity].
Qed.


(** X20.  With nothing marked in the gave-up set, the loop loses no
    response: when it returns a payload, the wait queue it started from
    is, up to order, the returned response together with the wait queue
    it leaves; the request queue and the (empty) gave-up set are
    untouched. *)
Theorem no_response_lost r (cs : list Selected) m m' (v : Payload)
  (err : option error) :
  giveUp m = ∅ ->
  receiveLoop r cs m = Some (m', Some v, err) ->
  exists res,
    waitQueue m ≡ₚ res :: waitQueue m'
    /\ ResponseID res = RequestID r /\ Payload_ res = v /\ Error res = err
    /\ giveUp m' = ∅ /\ queue m' = queue m.
Proof.
  revert m. induction cs as [|c cs IH]; intros m Hg; simpl; [discriminate|].
  destruct c as [e|]; simpl; [discriminate|].
  destruct m as [node q wq g]. simpl in *. subst g.
  destruct wq as [|res rest]; [discriminate|].
  destruct (N.eqb_spec (ResponseID res) (RequestID r)) as [Heq|Hne]; simpl.
  - intros [= <- <- <-]. exists res. simpl. split; [reflexivity|]. auto.
  - unfold gaveUp. simpl. rewrite lookup_empty. simpl.
    intros Hloop.
    destruct (IH (mkMockTransport node q (rest ++ [res]) ∅) eq_refl Hloop)
      as (x & Hperm & Hrest).
    exists x. simpl in *. split; [|exact Hrest].
    rewrite <- Hperm. apply Permutation_cons_append.
Qed.

(** X21.  An abandoned exchange leaves no trace.  On a transport with an
    empty wait queue where the caller's id is not marked: the caller's
    context fires and it gives up; the answer arrives late; the next turn
    of any other caller's loop drops it and removes the mark, and the
    transport is again exactly what it was at the start. *)
Theorem abandoned_exchange_cleans_up r r2 m (e : error) (v : Payload)
  (err : option error) :
  waitQueue m = [] ->
  giveUp m !! RequestID r = None ->
  RequestID r <> RequestID r2 ->
  exists m1,
    loopBody r (CtxDone e) m = Some (m1, Return None (Some e))
    /\ loopBody r2 Received (SendResponse r v err m1) = Some (m, Continue).
Proof.
  intros Hwq Hg Hne. destruct m as [node q wq g]. simpl in *. subst wq.
  eexists. split; [reflexivity|].
  unfold loopBody, SendResponse, gaveUp. simpl.
  rewrite (proj2 (N.eqb_neq _ _) Hne). simpl.
  rewrite lookup_insert_eq. simpl.
  rewrite delete_insert_id by exact Hg. reflexivity.
Qed.

(** X22.  [getTransport] makes a node's transport on first use and then
    keeps answering it: a second call returns the same transport and the
    same router, the request counter is not touched, and no other node's
    transport is touched. *)
Theorem getTransport_stable (node other : string) rt :
  getTransport node (getTransport node rt).1 = getTransport node rt
  /\ transports (getTransport node rt).1 !! node = Some (getTransport node rt).2
  /\ reqSeq (getTransport node rt).1 = reqSeq rt
  /\ (if decide (other = node) then True
      else transports (getTransport node rt).1 !! other = transports rt !! other).
Proof.
  unfold getTransport.
  destruct (transports rt !! node) as [t|] eqn:Hlook; simpl.
  - rewrite Hlook. split; [reflexivity|]. split; [reflexivity|].
    split; [reflexivity|]. destruct (decide (other = node)); [exact I|reflexivity].
  - rewrite lookup_insert_eq. split; [reflexivity|]. split; [reflexivity|].
    split; [reflexivity|].
    destruct (decide (other = node)) as [|Hne]; [exact I|].
    apply lookup_insert_ne. congruence.
Qed.

(** X23.  After [ResetTransport] of a node, and after [ResetAll] for every
    node, the next [getTransport] answers a brand-new transport: no
    pending request, no waiting response, no gave-up mark.
    [ResetTransport] leaves the transports of the other nodes alone. *)
Theorem reset_gives_new_transport (node other : string) rt :
  (getTransport node (ResetTransport node rt)).2 = newTransport node
  /\ (getTransport node (ResetAll rt)).2 = newTransport node
  /\ (if decide (other = node) then True
      else transports (ResetTransport node rt) !! other = transports rt !! other).
Proof.
  unfold getTransport, ResetTransport, ResetAll. split; [|split].
  - destruct (transports rt !! node) as [t|] eqn:Hlook; simpl.
    + rewrite lookup_delete_eq. reflexivity.
    + rewrite Hlook. reflexivity.
  - simpl. rewrite lookup_empty. reflexivity.
  - destruct (decide (other = node)) as [|Hne]; [exact I|].
    destruct (transports rt !! node); simpl; [|reflexivity].
    apply lookup_delete_ne. congruence.
Qed.

Lemma getReqIDs_spec (k : nat) rt :
  (reqSeq rt + N.of_nat k < 2 ^ 64)%N ->
  (getReqIDs k rt).2 = map (fun i => (reqSeq rt + N.of_nat i)%N) (seq 1 k)
  /\ reqSeq (getReqIDs k rt).1 = (reqSeq rt + N.of_nat k)%N.
Proof.
  revert rt. induction k as [|k IH]; intros rt Hk.
  - simpl. split; [reflexivity|]. lia.
  - assert (Hstep : ((reqSeq rt + 1) mod 2 ^ 64 = reqSeq rt + 1)%N).
    { apply N.mod_small. lia. }
    change (getReqIDs (S k) rt)
      with (let (rt1, v) := getReqID rt in
            let (rt2, vs) := getReqIDs k rt1 in (rt2, v :: vs)).
    unfold getReqID. rewrite Hstep.
    specialize (IH (mkMockTransportRouter (reqSeq rt + 1)%N (transports rt))).
    cbn [reqSeq] in IH.
    destruct (getReqIDs k (mkMockTransportRouter (reqSeq rt + 1)%N (transports rt)))
      as [rt2 vs].
    cbn [fst snd] in *. destruct IH as [Hvs Hseq]; [lia|]. split.
    + change (seq 1 (S k)) with (1%nat :: seq 2 k). cbn [map]. f_equal.
      rewrite Hvs, <- (seq_shift k 1), map_map.
      apply map_ext. intros i. lia.
    + rewrite Hseq. lia.
Qed.

(** X24.  Request ids are handed out in sequence and never twice: as long
    as the 64-bit counter does not wrap, [k] calls of [getReqID] return
    the [k] numbers following the counter, in increasing order, all
    different. *)
Theorem getReqID_fresh (k : nat) rt :
  (reqSeq rt + N.of_nat k < 2 ^ 64)%N ->
  (getReqIDs k rt).2 = map (fun i => (reqSeq rt + N.of_nat i)%N) (seq 1 k)
  /\ NoDup (getReqIDs k rt).2.
Proof.
  intros Hk. destruct (getReqIDs_spec k rt Hk) as [Hvs _].
  split; [exact Hvs|]. rewrite Hvs.
  apply NoDup_fmap_2; [|apply NoDup_ListNoDup, seq_NoDup].
  intros i j Hij. lia.
Qed.

End WithPayload.

End TransportMore.

Module TransportRuns.

Import Transport.

Local Open Scope string_scope.


Lemma sendRequest_result_witness :
  (exists p, Some "happy too" = Some p
     /\ ((exists res, In res (waitQueue (newTransport (Payload := string) "b"))
                      /\ ResponseID res = RequestID req7
                      /\ Payload_ res = p /\ Error res = None)
         \/ (exists r', In (Respond r' p None)
                          [Serve; Respond req7 "happy too" None; Own Received]
                        /\ RequestID r' = RequestID req7)))
  \/ (Some "happy too" = None
      /\ exists e, None = Some e
                   /\ In (Own (CtxDone e))
                        [Serve; Respond req7 "happy too" None; Own Received]
                   /\ gaveUp (newTransport (Payload := string) "b") (RequestID req7) = true).
Proof.
  exact (TransportMore.sendRequest_result req7
           [Serve; Respond req7 "happy too" None; Own Received]
           (newTransport "b") (newTransport "b") (Some "happy too") None eq_refl).
Defined.


Lemma no_response_lost_witness :
  exists res,
    waitQueue answered ≡ₚ res :: waitQueue (mkMockTransport "b" [] [res5] ∅)
    /\ ResponseID res = RequestID req7 /\ Payload_ res = "happy too"
    /\ Error res = None
    /\ giveUp (mkMockTransport "b" [] [res5] ∅) = ∅
    /\ queue (mkMockTransport "b" [] [res5] ∅) = queue answered.
Proof.
  exact (TransportMore.no_response_lost req7 [Received; Received] answered
           (mkMockTransport "b" [] [res5] ∅) "happy too" None eq_refl eq_refl).
Defined.

Lemma abandoned_exchange_cleans_up_witness :
  exists m1,
    loopBody req7 (CtxDone (ErrOther "context deadline exceeded")) (newTransport "b") =
      Some (m1, Return None (Some (ErrOther "context deadline exceeded")))
    /\ loopBody req8 Received (SendResponse req7 "happy too" None m1) =
         Some (newTransport "b", Continue).
Proof.
  refine (TransportMore.abandoned_exchange_cleans_up req7 req8 (newTransport "b")
            (ErrOther "context deadline exceeded") "happy too" None eq_refl eq_refl _).
  simpl. lia.
Defined.

Lemma getReqID_fresh_witness :
  (getReqIDs 3 (mkMockTransportRouter (Payload := string) 0 ∅)).2 = [1; 2; 3]%N
  /\ NoDup (getReqIDs 3 (mkMockTransportRouter (Payload := string) 0 ∅)).2.
Proof.
  refine (TransportMore.getReqID_fresh 3 (mkMockTransportRouter 0 ∅) _).
  simpl. lia.
Defined.

End TransportRuns.

(* ===================================================================== *)
(** * The mock workers of the tests *)
(* ===================================================================== *)

Module MockWorkerFacts.

Import MockWorker.

(** X25.  A phase call of the mock worker that returns an error has
    changed nothing; and whatever they return, Prepare and Rollback never
    change the running total. *)
Theorem failed_call_changes_nothing (c : Call) (w w' : MockTwoPCWorker) (e : error) :
  run c w = (w', Some e) ->
  w' = w
  /\ forall wb, total (Prepare wb w).1 = total w
                /\ total (Rollback wb w).1 = total w.
Proof.
  intros Hrun. split.
  - destruct c as [wb|wb|wb]; simpl in Hrun;
      unfold Prepare, Commit, Rollback in Hrun;
      repeat match type of Hrun with
             | context [if ?b then _ else _] => destruct b
             | context [match ?x with BInt64 _ => _ | BOther => _ end] => destruct x
             end; congruence.
  - intros wb. unfold Prepare, Rollback. split.
    + destruct (negb (String.eqb (state w) "")); [reflexivity|].
      destruct wb; reflexivity.
    + destruct (negb (String.eqb (state w) "prepared")); [reflexivity|].
      destruct (negb (deepEqual wb (data w))); reflexivity.
Qed.

(** X26.  On a worker in the idle state: Prepare of a value followed by
    Commit of the same value both succeed, add the value to the total (in
    [int64] arithmetic) and bring the worker back to idle; Prepare
    followed by Rollback of the same value both succeed, leave the total
    alone and clear the stored value; Prepare followed by Commit of
    another value fails at Commit and leaves the worker prepared. *)
Theorem prepare_then_finish (w : MockTwoPCWorker) (v v' : Z) :
  state w = ""%string ->
  v' <> v ->
  Prepare (BInt64 v) w = (mkMockTwoPCWorker (nodeID w) "prepared" v (total w), None)
  /\ Commit (BInt64 v) (Prepare (BInt64 v) w).1 =
       (mkMockTwoPCWorker (nodeID w) "" v (wrap64 (total w + v)), None)
  /\ Rollback (BInt64 v) (Prepare (BInt64 v) w).1 =
       (mkMockTwoPCWorker (nodeID w) "" 0 (total w), None)
  /\ Commit (BInt64 v') (Prepare (BInt64 v) w).1 =
       ((Prepare (BInt64 v) w).1, Some errNotSame).
Proof.
  intros Hs Hv. unfold Prepare. rewrite Hs. simpl.
  unfold Commit, Rollback. simpl. rewrite Z.eqb_refl. simpl.
  rewrite (proj2 (Z.eqb_neq v' v) Hv). simpl. auto.
Qed.

Lemma failed_call_changes_nothing_witness :
  mkMockTwoPCWorker "n1" "prepared" 5 10 = mkMockTwoPCWorker "n1" "prepared" 5 10
  /\ forall wb,
       total (Prepare wb (mkMockTwoPCWorker "n1" "prepared" 5 10)).1 = 10
       /\ total (Rollback wb (mkMockTwoPCWorker "n1" "prepared" 5 10)).1 = 10.
Proof.
  exact (failed_call_changes_nothing (CallCommit (BInt64 6))
           (mkMockTwoPCWorker "n1" "prepared" 5 10)
           (mkMockTwoPCWorker "n1" "prepared" 5 10) errNotSame eq_refl).
Defined.

Lemma prepare_then_finish_witness :
  Prepare (BInt64 5) (mkMockTwoPCWorker "n1" "" 0 10) =
    (mkMockTwoPCWorker "n1" "prepared" 5 10, None)
  /\ Commit (BInt64 5) (mkMockTwoPCWorker "n1" "prepared" 5 10) =
       (mkMockTwoPCWorker "n1" "" 5 15, None)
  /\ Rollback (BInt64 5) (mkMockTwoPCWorker "n1" "prepared" 5 10) =
       (mkMockTwoPCWorker "n1" "" 0 10, None)
  /\ Commit (BInt64 6) (mkMockTwoPCWorker "n1" "prepared" 5 10) =
       (mkMockTwoPCWorker "n1" "prepared" 5 10, Some errNotSame).
Proof.
  refine (prepare_then_finish (mkMockTwoPCWorker "n1" "" 0 10) 5 6 eq_refl _). lia.
Defined.

End MockWorkerFacts.

Module RaftNodeFacts.

Import TwoPC.

(** X27.  Under the [AllGood] policy, on a node that is not prepared for
    another transaction: Prepare of a batch succeeds and leaves the node
    prepared for the batch's id; Commit of the same batch then succeeds
    and leaves it committed; Rollback of the same batch instead succeeds
    and leaves it rolled back. *)
Theorem raft_prepare_then_finish (ctx : Ctx) (req : RaftWriteBatchReq) (r : RaftNode) :
  (state r = Prepared -> txid r = TxID req) ->
  Prepare (Worker := raftWorker AllGood) ctx (RaftReq req) r =
    (mkRaftNode (TxID req) Prepared, None)
  /\ Commit (Worker := raftWorker AllGood) ctx (RaftReq req)
       (mkRaftNode (TxID req) Prepared) = (mkRaftNode (TxID req) Committed, None)
  /\ Rollback (Worker := raftWorker AllGood) ctx (RaftReq req)
       (mkRaftNode (TxID req) Prepared) = (mkRaftNode (TxID req) RolledBack, None).
Proof.
  intros Hr. simpl. unfold raftCall, RPCPrepare, RPCCommit, RPCRollback. simpl.
  rewrite N.eqb_refl. simpl. split; [|split; reflexivity].
  destruct (state r) eqn:Hs; simpl; try reflexivity.
  rewrite (Hr eq_refl), N.eqb_refl. reflexivity.
Qed.

(** X28.  The Raft node's handlers report an inconsistent state without
    acting on it.  Under [AllGood]: Prepare on a node prepared for another
    transaction returns the inconsistent-state error and yet moves the
    node to the new transaction; Commit and Rollback on a node that is
    not prepared return the error and yet mark the node committed,
    respectively rolled back. *)
Theorem raft_reports_but_proceeds (ctx : Ctx) (req : RaftWriteBatchReq) (r : RaftNode) :
  (state r = Prepared -> txid r <> TxID req ->
     Prepare (Worker := raftWorker AllGood) ctx (RaftReq req) r =
       (mkRaftNode (TxID req) Prepared,
        Some (ErrOther "raft node is in inconsistent state")))
  /\ (state r <> Prepared ->
        Commit (Worker := raftWorker AllGood) ctx (RaftReq req) r =
          (mkRaftNode (txid r) Committed,
           Some (ErrOther "raft node is in inconsistent state"))
        /\ Rollback (Worker := raftWorker AllGood) ctx (RaftReq req) r =
             (mkRaftNode (txid r) RolledBack,
              Some (ErrOther "raft node is in inconsistent state"))).
Proof.
  simpl. unfold raftCall, RPCPrepare, RPCCommit, RPCRollback. split.
  - intros Hs Hne. rewrite Hs. simpl.
    rewrite (proj2 (N.eqb_neq _ _) Hne). reflexivity.
  - intros Hs. destruct (state r); try contradiction; split; reflexivity.
Qed.

Lemma raft_prepare_then_finish_witness :
  Prepare (Worker := raftWorker AllGood) 5000000000%N (RaftReq (mkRaftWriteBatchReq 0%N []))
    (mkRaftNode 0%N Initailized) = (mkRaftNode 0%N Prepared, None)
  /\ Commit (Worker := raftWorker AllGood) 5000000000%N (RaftReq (mkRaftWriteBatchReq 0%N []))
       (mkRaftNode 0%N Prepared) = (mkRaftNode 0%N Committed, None)
  /\ Rollback (Worker := raftWorker AllGood) 5000000000%N (RaftReq (mkRaftWriteBatchReq 0%N []))
       (mkRaftNode 0%N Prepared) = (mkRaftNode 0%N RolledBack, None).
Proof.
  refine (raft_prepare_then_finish 5000000000%N (mkRaftWriteBatchReq 0%N [])
            (mkRaftNode 0%N Initailized) _).
  simpl. discriminate.
Defined.

Lemma raft_reports_but_proceeds_witness :
  Prepare (Worker := raftWorker AllGood) 5000000000%N (RaftReq (mkRaftWriteBatchReq 2%N []))
    (mkRaftNode 1%N Prepared) =
    (mkRaftNode 2%N Prepared, Some (ErrOther "raft node is in inconsistent state"))
  /\ Commit (Worker := raftWorker AllGood) 5000000000%N (RaftReq (mkRaftWriteBatchReq 2%N []))
       (mkRaftNode 1%N Initailized) =
       (mkRaftNode 1%N Committed, Some (ErrOther "raft node is in inconsistent state")).
Proof.
  split.
  - refine (proj1 (raft_reports_but_proceeds 5000000000%N (mkRaftWriteBatchReq 2%N [])
                     (mkRaftNode 1%N Prepared)) eq_refl _).
    simpl. lia.
  - refine (proj1 (proj2 (raft_reports_but_proceeds 5000000000%N
                            (mkRaftWriteBatchReq 2%N []) (mkRaftNode 1%N Initailized)) _)).
    simpl. discriminate.
Defined.

End RaftNodeFacts.
